(** * wake-on-lan: a shallow embedding of [main.go]

    The program builds a Wake-on-LAN magic packet from the [-mac-address]
    flag and broadcasts it over UDP, or lists the network adapters of the
    host.  Every Go function of [main.go] is a definition of the same name
    below.  The functions of Go's [net], [flag] and [os] packages the
    program calls are not part of the repository: the pure ones ([IP.To4],
    [IP.IsLoopback]) are written out, the ones that ask the operating
    system are fields of a [World], over which every theorem quantifies.

    A run of a function is a [Prog A]: from the value of the package-level
    variable [programFlags] to an outcome (normal return, [os.Exit], or a
    run-time panic), the new value of [programFlags], and the events
    (library calls and output) of the run, in order. *)

From Stdlib Require Import ZArith Lia.
From Stdlib.Strings Require Import Byte.
From stdpp Require Import base list strings.

Open Scope Z_scope.

(** ** Data *)

#[global] Instance byte_eq_decision : EqDecision byte := Byte.byte_eq_dec.

(** [net.IP] and [net.HardwareAddr] are byte slices. *)
Definition IP : Type := list byte.
Definition HardwareAddr : Type := list byte.

(** A Go [(T, error)] result; an error carries its [Error()] text. *)
Inductive result (A : Type) : Type :=
| Ok (a : A)
| Err (msg : string).
Arguments Ok {A} a.
Arguments Err {A} msg.

(** [net.UDPAddr] (the zone is not used by the program). *)
Module UDPAddr.
Record t : Type := mk { IP : list byte; Port : Z }.
End UDPAddr.

(** [net.Interface]: the fields the program reads. *)
Module Interface.
Record t : Type := mk { Index : Z; Name : string }.
End Interface.

(** The [net.Addr] values of a list of adapter addresses, by dynamic
    type: [*net.IPNet] (address and mask), as [Interface.Addrs] reports
    the addresses of an adapter, and [*net.IPAddr] for a value of another
    type, which the type switch of [addressFromNetworkAdapter] passes
    over. *)
Inductive Addr : Type :=
| IPNet (ip : IP) (mask : list byte)
| IPAddr (ip : IP) (zone : string).

(** [*net.UDPConn], with what [LocalAddr()] and [RemoteAddr()] report. *)
Module UDPConn.
Record t : Type := mk { LocalAddr : UDPAddr.t; RemoteAddr : UDPAddr.t }.
End UDPConn.

(** [var programFlags struct {...}]; [macAddress = None] is the nil slice. *)
Module programFlags.
Record t : Type := mk {
  listNetworkAdapters : bool;
  macAddress : option HardwareAddr;
  networkAdapterName : string
}.
End programFlags.

(** ** Constants *)

(** [const ( _ int = iota + 2; ... )]: the blank identifier takes 2, the
    status with which Go's [flag] package leaves on a flag error. *)
Definition iotaPlus2 (iota : Z) : Z := iota + 2.
Definition macAddressNotEUI48Error : Z := iotaPlus2 1.
Definition macAddressNotInformedError : Z := iotaPlus2 2.
Definition networkAdapterAddressesFetchingError : Z := iotaPlus2 3.
Definition networkAdapterFetchingError : Z := iotaPlus2 4.
Definition networkAdaptersFetchingError : Z := iotaPlus2 5.
Definition notAllWOLPayloadBytesSentError : Z := iotaPlus2 6.
Definition udpConnectionError : Z := iotaPlus2 7.
Definition wolPayloadSendingError : Z := iotaPlus2 8.

Definition eui48Length : Z := 6.
Definition wakeOnLanUDPPort : Z := 7.
Definition payloadLength : Z := eui48Length + (16 * eui48Length).

(** [type wolPayload [payloadLength]byte]: a list that keeps that length. *)
Definition wolPayload : Type := list byte.

(** ** The part of Go's library the program calls *)

(** [net.IP.To4]: a 4-byte address is itself; a 16-byte one with the
    IPv4-in-IPv6 prefix (ten zero bytes, [ff ff]) is its last four bytes;
    anything else is nil. *)
Definition isZeros (p : list byte) : bool := forallb (Byte.eqb x00) p.

Definition To4 (ip : IP) : option IP :=
  if (length ip =? 4)%nat then Some ip
  else if (length ip =? 16)%nat
          && isZeros (take 10 ip)
          && bool_decide (ip !! 10%nat = Some xff)
          && bool_decide (ip !! 11%nat = Some xff)
  then Some (drop 12 ip)
  else None.

Definition IPv6loopback : IP :=
  [x00; x00; x00; x00; x00; x00; x00; x00; x00; x00; x00; x00; x00; x00; x00; x01].

(** [net.IP.IsLoopback]: [ip4[0] == 127] for an IPv4 address, [::1] otherwise. *)
Definition IsLoopback (ip : IP) : bool :=
  match To4 ip with
  | Some ip4 => bool_decide (ip4 !! 0%nat = Some x7f)
  | None => bool_decide (ip = IPv6loopback)
  end.

(** What the host answers to the program's library calls. *)
Record World : Type := {
  net_ParseMAC : string -> result HardwareAddr;
  net_Interfaces : result (list Interface.t);
  net_InterfaceByName : string -> result Interface.t;
  net_Addrs : Interface.t -> result (list Addr);
  net_DialUDP : option UDPAddr.t -> UDPAddr.t -> result UDPConn.t;
  conn_Write : UDPConn.t -> list byte -> Z * option string
}.

(** ** Events of a run *)

(** The lines the program prints, one constructor per format string, with
    the values it formats. *)
Inductive Message : Type :=
| MsgAddressesFetching (index : Z) (err : string)
| MsgAdapterFetching (name : string) (err : string)
| MsgNoMACAddress
| MsgNotEUI48
| MsgAdaptersFetching (err : string)
| MsgAdapterLine (ip : IP) (name : string)
| MsgConnecting (remote : UDPAddr.t) (loc : option UDPAddr.t) (err : string)
| MsgFlagError (value : string) (err : string)
| MsgUsage
| MsgSending (remote loc : UDPAddr.t)
| MsgSendingError (err : string)
| MsgSent
| MsgNotAllBytes (expected : Z).

Inductive Event : Type :=
| Stdout (m : Message)
| Stderr (m : Message)
| CallInterfaces
| CallInterfaceByName (name : string)
| CallAddrs (ifi : Interface.t)
| CallDialUDP (laddr : option UDPAddr.t) (raddr : UDPAddr.t)
| CallWrite (c : UDPConn.t) (b : list byte)
| CallClose (c : UDPConn.t).

(** ** Runs *)

Inductive Outcome (A : Type) : Type :=
| Returns (a : A)
| Exits (code : Z)
| Panics.
Arguments Returns {A} a.
Arguments Exits {A} code.
Arguments Panics {A}.

Definition Prog (A : Type) : Type :=
  programFlags.t -> Outcome A * programFlags.t * list Event.

#[global] Instance Prog_ret : MRet Prog :=
  fun A a flags => (Returns a, flags, []).

#[global] Instance Prog_bind : MBind Prog :=
  fun A B k m flags =>
    match m flags with
    | (Returns a, flags', t) =>
        let '(o, flags'', t') := k a flags' in (o, flags'', t ++ t')
    | (Exits code, flags', t) => (Exits code, flags', t)
    | (Panics, flags', t) => (Panics, flags', t)
    end.

Definition emit (e : Event) : Prog unit :=
  fun flags => (Returns tt, flags, [e]).

(** [os.Exit(code)]: nothing after it runs. *)
Definition os_Exit {A : Type} (code : Z) : Prog A :=
  fun flags => (Exits code, flags, []).

Definition panic {A : Type} : Prog A :=
  fun flags => (Panics, flags, []).

Definition getFlags : Prog programFlags.t :=
  fun flags => (Returns flags, flags, []).

Definition setFlags (flags : programFlags.t) : Prog unit :=
  fun _ => (Returns tt, flags, []).

(** The three components of a finished run. *)
Definition outcome {A : Type} (r : Outcome A * programFlags.t * list Event) : Outcome A :=
  r.1.1.
Definition trace {A : Type} (r : Outcome A * programFlags.t * list Event) : list Event :=
  r.2.

(** The status the process leaves with: 0 when [main] returns, the argument
    of [os.Exit], 2 when the Go run time stops on a panic. *)
Definition exitStatus {A : Type} (o : Outcome A) : Z :=
  match o with
  | Returns _ => 0
  | Exits code => code
  | Panics => 2
  end.

(** ** The program *)

(** The command lines the development covers: occurrences, in order, of
    the three flags [init] declares, each with a value of its type.  The
    other ways in which [flag.Parse] itself ends the process ([-h], a flag
    that is not declared, a flag without its value, a boolean that does
    not parse) and arguments that are not flags are not represented; no
    statement below speaks of such a command line. *)
Inductive FlagArg : Type :=
| ArgListNetworkAdapters (value : bool)
| ArgNetworkAdapterName (name : string)
| ArgMacAddress (macAddress : string).

(** The status of [flag.CommandLine] ([flag.ExitOnError]) on a flag error. *)
Definition flagErrorExit : Z := 2.

(** [for x := start; x < start + count; x++ { body }] over the variables
    the body assigns; [None] is a panic inside the body. *)
Fixpoint forRange {S : Type} (body : nat -> S -> option S) (start count : nat) (s : S)
  : option S :=
  match count with
  | O => Some s
  | Datatypes.S count' =>
      match body start s with
      | Some s' => forRange body (Datatypes.S start) count' s'
      | None => None
      end
  end.

(** [a[i] = v] on an array: a panic when [i] is out of range. *)
Definition store (a : list byte) (i : nat) (v : byte) : option (list byte) :=
  if decide (i < length a)%nat then Some (<[i:=v]> a) else None.

(** The [for ... range networkAdapterAddresses] loop of
    [addressFromNetworkAdapter], with its type switch. *)
Fixpoint rangeAddresses (networkAdapterAddresses : list Addr) : option UDPAddr.t :=
  match networkAdapterAddresses with
  | [] => None
  | networkAdapterAddress :: rest =>
      match networkAdapterAddress with
      | IPNet ip _ =>
          match To4 ip with
          | None => rangeAddresses rest
          | Some ipv4 =>
              if IsLoopback ipv4 then rangeAddresses rest
              else Some (UDPAddr.mk ipv4 wakeOnLanUDPPort)
          end
      | IPAddr _ _ => rangeAddresses rest
      end
  end.

(** The body of [createWOLPayload] on the value of [programFlags.macAddress]. *)
Definition payloadOf (macAddress : option HardwareAddr) : option wolPayload :=
  let payload : wolPayload :=
    [xff; xff; xff; xff; xff; xff] ++ replicate (Z.to_nat payloadLength - 6) x00 in
  let payloadIndex : nat := 6%nat in
  fst <$>
    forRange (fun i =>
      forRange (fun j '(payload, payloadIndex) =>
        b ← default [] macAddress !! j;
        payload' ← store payload payloadIndex b;
        Some (payload', Datatypes.S payloadIndex))
        0 (Z.to_nat eui48Length))
      0 16 (payload, payloadIndex).

Arguments payloadOf : simpl never.

(** The remote address of [openUDPConnection]. *)
Definition remoteAddress : UDPAddr.t :=
  UDPAddr.mk [xff; xff; xff; xff] wakeOnLanUDPPort.

(** [init]: the zero value of [programFlags] and the flags' defaults. *)
Definition init : programFlags.t := programFlags.mk false None "".

Section Program.
Context (w : World).

Definition addressFromNetworkAdapter (networkAdapter : Interface.t)
  : Prog (option UDPAddr.t) :=
  emit (CallAddrs networkAdapter) ;;
  match net_Addrs w networkAdapter with
  | Err err =>
      emit (Stderr (MsgAddressesFetching (Interface.Index networkAdapter) err)) ;;
      os_Exit networkAdapterAddressesFetchingError
  | Ok networkAdapterAddresses => mret (rangeAddresses networkAdapterAddresses)
  end.

Definition addressFromNetworkAdapterName (networkAdapterName : string)
  : Prog (option UDPAddr.t) :=
  emit (CallInterfaceByName networkAdapterName) ;;
  match net_InterfaceByName w networkAdapterName with
  | Err err =>
      emit (Stderr (MsgAdapterFetching networkAdapterName err)) ;;
      os_Exit networkAdapterFetchingError
  | Ok networkAdapter => addressFromNetworkAdapter networkAdapter
  end.

Definition checkParsedMACAddress : Prog unit :=
  flags ← getFlags;
  if programFlags.listNetworkAdapters flags then mret tt
  else
    match programFlags.macAddress flags with
    | None => emit (Stderr MsgNoMACAddress) ;; os_Exit macAddressNotInformedError
    | Some macAddress =>
        if bool_decide (Z.of_nat (length macAddress) ≠ eui48Length)
        then emit (Stderr MsgNotEUI48) ;; os_Exit macAddressNotEUI48Error
        else mret tt
    end.

Definition closeUDPConnection (udpConnection : UDPConn.t) : Prog unit :=
  emit (CallClose udpConnection).

Definition createWOLPayload : Prog wolPayload :=
  flags ← getFlags;
  match payloadOf (programFlags.macAddress flags) with
  | Some payload => mret payload
  | None => panic
  end.

(** The [for ... range networkAdapters] loop of [listNetworkAdapters]. *)
Fixpoint rangeNetworkAdapters (networkAdapters : list Interface.t) : Prog unit :=
  match networkAdapters with
  | [] => mret tt
  | networkAdapter :: rest =>
      networkAdapterAddress ← addressFromNetworkAdapter networkAdapter;
      match networkAdapterAddress with
      | Some a =>
          emit (Stdout (MsgAdapterLine (UDPAddr.IP a) (Interface.Name networkAdapter)))
      | None => mret tt
      end ;;
      rangeNetworkAdapters rest
  end.

Definition listNetworkAdapters : Prog unit :=
  emit CallInterfaces ;;
  match net_Interfaces w with
  | Err err =>
      emit (Stderr (MsgAdaptersFetching err)) ;;
      os_Exit networkAdaptersFetchingError
  | Ok networkAdapters => rangeNetworkAdapters networkAdapters
  end.

Definition openUDPConnection : Prog UDPConn.t :=
  flags ← getFlags;
  localAddress ← addressFromNetworkAdapterName (programFlags.networkAdapterName flags);
  emit (CallDialUDP localAddress remoteAddress) ;;
  match net_DialUDP w localAddress remoteAddress with
  | Err err =>
      emit (Stderr (MsgConnecting remoteAddress localAddress err)) ;;
      os_Exit udpConnectionError
  | Ok udpConnection => mret udpConnection
  end.

(** The function given to [flag.Func]: it assigns [programFlags.macAddress]
    (nil when [net.ParseMAC] fails) and returns its own error or nil. *)
Definition parseMACAddressFlag (macAddress : string) : Prog (option string) :=
  flags ← getFlags;
  match net_ParseMAC w macAddress with
  | Ok hw =>
      setFlags (programFlags.mk (programFlags.listNetworkAdapters flags) (Some hw)
                                (programFlags.networkAdapterName flags)) ;;
      mret None
  | Err _ =>
      setFlags (programFlags.mk (programFlags.listNetworkAdapters flags) None
                                (programFlags.networkAdapterName flags)) ;;
      mret (Some "could not parse MAC address")
  end.

(** [flag.Parse]: each occurrence sets its variable ([flag.BoolVar],
    [flag.StringVar]) or calls its function ([flag.Func]); on an error of
    the function the package prints the error line and then the usage text
    to the error stream, and the process leaves with [flagErrorExit]. *)
Fixpoint flag_Parse (args : list FlagArg) : Prog unit :=
  match args with
  | [] => mret tt
  | arg :: rest =>
      match arg with
      | ArgListNetworkAdapters value =>
          flags ← getFlags;
          setFlags (programFlags.mk value (programFlags.macAddress flags)
                                    (programFlags.networkAdapterName flags))
      | ArgNetworkAdapterName name =>
          flags ← getFlags;
          setFlags (programFlags.mk (programFlags.listNetworkAdapters flags)
                                    (programFlags.macAddress flags) name)
      | ArgMacAddress macAddress =>
          err ← parseMACAddressFlag macAddress;
          match err with
          | Some e =>
              emit (Stderr (MsgFlagError macAddress e)) ;;
              emit (Stderr MsgUsage) ;;
              os_Exit flagErrorExit
          | None => mret tt
          end
      end ;;
      flag_Parse rest
  end.

Definition parseProgramFlags (args : list FlagArg) : Prog unit :=
  flag_Parse args ;;
  checkParsedMACAddress.

Definition sendWOLPayload (udpConnection : UDPConn.t) (payload : wolPayload) : Prog unit :=
  emit (Stdout (MsgSending (UDPConn.RemoteAddr udpConnection)
                           (UDPConn.LocalAddr udpConnection))) ;;
  emit (CallWrite udpConnection payload) ;;
  let '(bytesWritten, err) := conn_Write w udpConnection payload in
  match err with
  | Some e =>
      emit (Stderr (MsgSendingError e)) ;;
      os_Exit wolPayloadSendingError
  | None =>
      if bool_decide (bytesWritten = payloadLength) then emit (Stdout MsgSent)
      else
        emit (Stderr (MsgNotAllBytes payloadLength)) ;;
        os_Exit notAllWOLPayloadBytesSentError
  end.

(** The deferred [closeUDPConnection] runs when the function returns; it
    is registered after [sendWOLPayload], so not when that one exits. *)
Definition wakeRemoteComputer : Prog unit :=
  udpConnection ← openUDPConnection;
  payload ← createWOLPayload;
  sendWOLPayload udpConnection payload ;;
  closeUDPConnection udpConnection.

Definition main (args : list FlagArg) : Prog unit :=
  parseProgramFlags args ;;
  flags ← getFlags;
  if programFlags.listNetworkAdapters flags then listNetworkAdapters
  else wakeRemoteComputer.

End Program.

(** A run of the program: [init], then [main]. *)
Definition run (w : World) (args : list FlagArg)
  : Outcome unit * programFlags.t * list Event :=
  main w args init.

(** ** A concrete host *)

(** A host with a loopback adapter and one Ethernet adapter.  Its adapter
    lookup follows Go's [net.InterfaceByName]: the empty name is refused,
    an unknown name is an error.  Its IPv4 addresses are in the 16-byte
    form [net.IPv4] builds. *)
Module Host.

Definition v4in6 (a b c d : byte) : IP :=
  [x00; x00; x00; x00; x00; x00; x00; x00; x00; x00; xff; xff; a; b; c; d].

Definition lo : Interface.t := Interface.mk 1 "lo".
Definition eth0 : Interface.t := Interface.mk 2 "eth0".

Definition loopbackV4 : Addr := IPNet (v4in6 x7f x00 x00 x01) [xff; x00; x00; x00].
Definition loopbackV6 : Addr := IPNet IPv6loopback (replicate 16 xff).
Definition realV4 : Addr := IPNet (v4in6 xc0 xa8 x01 x0a) [xff; xff; xff; x00].
Definition linkLocalV6 : Addr :=
  IPNet [xfe; x80; x00; x00; x00; x00; x00; x00; x00; x00; x00; x00; x00; x00; x00; x01]
        (replicate 8 xff ++ replicate 8 x00).

Definition target : HardwareAddr := [xaa; xbb; xcc; xdd; xee; xff].
Definition eui64 : HardwareAddr := [x01; x23; x45; x67; x89; xab; xcd; xef].

Definition parseMAC (s : string) : result HardwareAddr :=
  if String.eqb s "AA:BB:CC:DD:EE:FF" then Ok target
  else if String.eqb s "01:23:45:67:89:ab:cd:ef" then Ok eui64
  else Err "invalid MAC address".

Definition interfaceByName (name : string) : result Interface.t :=
  if String.eqb name "" then Err "invalid network interface name"
  else if String.eqb name "lo" then Ok lo
  else if String.eqb name "eth0" then Ok eth0
  else Err "no such network interface".

Definition addrs (ifi : Interface.t) : result (list Addr) :=
  if String.eqb (Interface.Name ifi) "lo" then Ok [loopbackV4; loopbackV6]
  else Ok [realV4; linkLocalV6].

(** Without a local address the system picks one (here 192.168.1.10:40000). *)
Definition dialUDP (laddr : option UDPAddr.t) (raddr : UDPAddr.t) : result UDPConn.t :=
  Ok (UDPConn.mk (default (UDPAddr.mk [xc0; xa8; x01; x0a] 40000) laddr) raddr).

Definition write (c : UDPConn.t) (b : list byte) : Z * option string :=
  (Z.of_nat (length b), None).

Definition world : World :=
  {| net_ParseMAC := parseMAC;
     net_Interfaces := Ok [lo; eth0];
     net_InterfaceByName := interfaceByName;
     net_Addrs := addrs;
     net_DialUDP := dialUDP;
     conn_Write := write |}.

(** The same host when the addresses of [eth0] cannot be fetched. *)
Definition addrsFailing : World :=
  {| net_ParseMAC := parseMAC;
     net_Interfaces := Ok [lo; eth0];
     net_InterfaceByName := interfaceByName;
     net_Addrs := fun ifi =>
       if String.eqb (Interface.Name ifi) "eth0" then Err "permission denied"
       else addrs ifi;
     net_DialUDP := dialUDP;
     conn_Write := write |}.

(** The same host when no socket can be opened. *)
Definition dialFailing : World :=
  {| net_ParseMAC := parseMAC;
     net_Interfaces := Ok [lo; eth0];
     net_InterfaceByName := interfaceByName;
     net_Addrs := addrs;
     net_DialUDP := fun _ _ => Err "network is unreachable";
     conn_Write := write |}.

(** The same host when the write fails, and when it is cut short. *)
Definition writeFailing : World :=
  {| net_ParseMAC := parseMAC;
     net_Interfaces := Ok [lo; eth0];
     net_InterfaceByName := interfaceByName;
     net_Addrs := addrs;
     net_DialUDP := dialUDP;
     conn_Write := fun _ _ => (0, Some "operation not permitted") |}.

Definition writeShort : World :=
  {| net_ParseMAC := parseMAC;
     net_Interfaces := Ok [lo; eth0];
     net_InterfaceByName := interfaceByName;
     net_Addrs := addrs;
     net_DialUDP := dialUDP;
     conn_Write := fun _ _ => (60, None) |}.

(** The same host when [eth0] also carries a loopback alias, and its
    addresses come link-local first. *)
Definition aliased : World :=
  {| net_ParseMAC := parseMAC;
     net_Interfaces := Ok [lo; eth0];
     net_InterfaceByName := interfaceByName;
     net_Addrs := fun ifi =>
       if String.eqb (Interface.Name ifi) "eth0"
       then Ok [linkLocalV6; loopbackV4; realV4]
       else addrs ifi;
     net_DialUDP := dialUDP;
     conn_Write := write |}.

End Host.

(** ** The vocabulary of the statements *)

(** The address an entry of either kind carries. *)
Definition addrIP (a : Addr) : IP :=
  match a with
  | IPNet ip _ => ip
  | IPAddr ip _ => ip
  end.

Definition isIPNet (a : Addr) : bool :=
  match a with
  | IPNet _ _ => true
  | IPAddr _ _ => false
  end.

(** An IPv4 address (one with a 4-byte form) outside 127.0.0.0/8. *)
Definition usableIP (ip : IP) : bool :=
  match To4 ip with
  | Some ip4 => negb (bool_decide (ip4 !! 0%nat = Some x7f))
  | None => false
  end.

(** An entry whose address is IPv4 and not loopback, of whatever kind. *)
Definition usableAddr (a : Addr) : bool := usableIP (addrIP a).

(** A [*net.IPNet] entry whose address is IPv4 and not loopback. *)
Definition usableIPNet (a : Addr) : bool := isIPNet a && usableIP (addrIP a).

(** The first entry, in enumeration order, that qualifies, as the local
    endpoint: its 4-byte form on the Wake-on-LAN port. *)
Definition firstQualifying (qualifies : Addr -> bool) (l : list Addr)
  : option UDPAddr.t :=
  (fun a => UDPAddr.mk (default [] (To4 (addrIP a))) wakeOnLanUDPPort)
    <$> List.find qualifies l.

(** What C2 asks of [openUDPConnection]: when the resolver returns no
    address the process ends there, and no socket is opened with a nil
    local address. *)
Definition absentAddressIsFatal (w : World) (flags : programFlags.t) : Prop :=
  outcome (addressFromNetworkAdapterName w (programFlags.networkAdapterName flags) flags)
    = Returns None ->
  (exists code, outcome (openUDPConnection w flags) = Exits code) /\
  (forall raddr, CallDialUDP None raddr ∉ trace (openUDPConnection w flags)).


Definition isWrite (e : Event) : bool :=
  match e with
  | CallWrite _ _ => true
  | _ => false
  end.

(** An event that is not a call of [net.DialUDP], or is one to the
    broadcast address on port 7. *)
Definition dialsBroadcast (e : Event) : Prop :=
  match e with
  | CallDialUDP _ raddr => raddr = UDPAddr.mk [xff; xff; xff; xff] 7
  | _ => True
  end.

(** An event that opens or uses no socket. *)
Definition noSocket (e : Event) : Prop :=
  match e with
  | CallDialUDP _ _ | CallWrite _ _ | CallClose _ => False
  | _ => True
  end.

(** The adapters whose addresses were asked for, in the order of the calls. *)
Definition addrsCalls (t : list Event) : list Interface.t :=
  omap (fun e => match e with CallAddrs ifi => Some ifi | _ => None end) t.

(** The lines printed on standard output, in order. *)
Definition stdoutLines (t : list Event) : list Message :=
  omap (fun e => match e with Stdout m => Some m | _ => None end) t.

Definition addrsFetched (w : World) (ifi : Interface.t) : Prop :=
  exists l, net_Addrs w ifi = Ok l.

(** What the resolver returns for an adapter (nil also when it exits). *)
Definition resolved (w : World) (ifi : Interface.t) : option UDPAddr.t :=
  match outcome (addressFromNetworkAdapter w ifi init) with
  | Returns localAddress => localAddress
  | _ => None
  end.

(** The line of an adapter in the listing, if it has one. *)
Definition adapterLine (w : World) (ifi : Interface.t) : option Message :=
  (fun a => MsgAdapterLine (UDPAddr.IP a) (Interface.Name ifi)) <$> resolved w ifi.

(** The events of one turn of the loop on an adapter whose addresses are
    fetched. *)
Definition adapterEvents (w : World) (ifi : Interface.t) : list Event :=
  CallAddrs ifi :: match adapterLine w ifi with
                   | Some line => [Stdout line]
                   | None => []
                   end.

(** The eight fatal conditions of a run that is to send. *)
Inductive FatalCondition : Type :=
| UnparseableAddress
| MissingAddress
| WrongAddressLength
| AdapterLookupFailure
| AddressEnumerationFailure
| SocketOpenFailure
| SendFailure
| PartialSend.

(** The argument of [os.Exit] at the place each condition is detected
    ([flag.Parse] itself leaves on an address that does not parse). *)
Definition exitCodeOf (c : FatalCondition) : Z :=
  match c with
  | UnparseableAddress => flagErrorExit
  | MissingAddress => macAddressNotInformedError
  | WrongAddressLength => macAddressNotEUI48Error
  | AdapterLookupFailure => networkAdapterFetchingError
  | AddressEnumerationFailure => networkAdapterAddressesFetchingError
  | SocketOpenFailure => udpConnectionError
  | SendFailure => wolPayloadSendingError
  | PartialSend => notAllWOLPayloadBytesSentError
  end.

(** A flag occurrence that [flag.Parse] accepts. *)
Definition accepted (w : World) (arg : FlagArg) : Prop :=
  match arg with
  | ArgMacAddress s => exists hw, net_ParseMAC w s = Ok hw
  | _ => True
  end.

(** [flag.Parse] returned, leaving [flags]. *)
Definition parsed (w : World) (args : list FlagArg) (flags : programFlags.t) : Prop :=
  exists t, flag_Parse w args init = (Returns tt, flags, t).

(** The run is to send, and holds the 6-byte address [hw]. *)
Definition sending (w : World) (args : list FlagArg) (flags : programFlags.t)
  (hw : HardwareAddr) : Prop :=
  parsed w args flags /\
  programFlags.listNetworkAdapters flags = false /\
  programFlags.macAddress flags = Some hw /\
  length hw = 6%nat.

(** The adapter of the flags is found, its addresses are fetched, and
    [net.DialUDP] from the resolved address answers [r]. *)
Definition dialled (w : World) (flags : programFlags.t) (r : result UDPConn.t) : Prop :=
  exists ifi l,
    net_InterfaceByName w (programFlags.networkAdapterName flags) = Ok ifi /\
    net_Addrs w ifi = Ok l /\
    net_DialUDP w (rangeAddresses l) remoteAddress = r.

(** The socket is open and the write of the payload of [hw] answers [r]. *)
Definition written (w : World) (flags : programFlags.t) (hw : HardwareAddr)
  (r : Z * option string) : Prop :=
  exists udpConnection payload,
    dialled w flags (Ok udpConnection) /\
    payloadOf (Some hw) = Some payload /\
    conn_Write w udpConnection payload = r.

Definition occurs (c : FatalCondition) (w : World) (args : list FlagArg) : Prop :=
  match c with
  | UnparseableAddress =>
      exists before s after err,
        args = before ++ ArgMacAddress s :: after /\
        Forall (accepted w) before /\
        net_ParseMAC w s = Err err
  | MissingAddress =>
      exists flags,
        parsed w args flags /\
        programFlags.listNetworkAdapters flags = false /\
        programFlags.macAddress flags = None
  | WrongAddressLength =>
      exists flags hw,
        parsed w args flags /\
        programFlags.listNetworkAdapters flags = false /\
        programFlags.macAddress flags = Some hw /\
        length hw <> 6%nat
  | AdapterLookupFailure =>
      exists flags hw err,
        sending w args flags hw /\
        net_InterfaceByName w (programFlags.networkAdapterName flags) = Err err
  | AddressEnumerationFailure =>
      exists flags hw ifi err,
        sending w args flags hw /\
        net_InterfaceByName w (programFlags.networkAdapterName flags) = Ok ifi /\
        net_Addrs w ifi = Err err
  | SocketOpenFailure =>
      exists flags hw err, sending w args flags hw /\ dialled w flags (Err err)
  | SendFailure =>
      exists flags hw n err,
        sending w args flags hw /\ written w flags hw (n, Some err)
  | PartialSend =>
      exists flags hw n,
        sending w args flags hw /\ written w flags hw (n, None) /\ n <> payloadLength
  end.

(** The run is to send and every step succeeds, the write with 102 bytes. *)
Definition succeeds (w : World) (args : list FlagArg) : Prop :=
  exists flags hw, sending w args flags hw /\ written w flags hw (payloadLength, None).

(** The magic packet of a hardware address: six [0xff], then the address
    sixteen times. *)
Definition magicPacket (hw : HardwareAddr) : wolPayload :=
  replicate 6 xff ++ mjoin (replicate 16 hw).
Arguments magicPacket : simpl never.

(** The argument of the [os.Exit] that follows each line the program (or,
    for a flag error, the [flag] package) writes to the error stream; the
    lines of the standard output are followed by none. *)
Definition messageCode (m : Message) : option Z :=
  match m with
  | MsgAddressesFetching _ _ => Some networkAdapterAddressesFetchingError
  | MsgAdapterFetching _ _ => Some networkAdapterFetchingError
  | MsgNoMACAddress => Some macAddressNotInformedError
  | MsgNotEUI48 => Some macAddressNotEUI48Error
  | MsgAdaptersFetching _ => Some networkAdaptersFetchingError
  | MsgConnecting _ _ _ => Some udpConnectionError
  | MsgFlagError _ _ => Some flagErrorExit
  | MsgUsage => None
  | MsgSendingError _ => Some wolPayloadSendingError
  | MsgNotAllBytes _ => Some notAllWOLPayloadBytesSentError
  | MsgAdapterLine _ _ => None
  | MsgSending _ _ => None
  | MsgSent => None
  end.

Definition isStderr (e : Event) : bool :=
  match e with
  | Stderr _ => true
  | _ => false
  end.

Definition isDial (e : Event) : bool :=
  match e with
  | CallDialUDP _ _ => true
  | _ => false
  end.

(** The flags [flag.Parse] leaves, whether it returns or not. *)
Definition flagsAfterParse (w : World) (args : list FlagArg) : programFlags.t :=
  (flag_Parse w args init).1.2.

(** The value an occurrence gives to each of the three flags. *)
Definition listValue (arg : FlagArg) : option bool :=
  match arg with
  | ArgListNetworkAdapters value => Some value
  | _ => None
  end.

Definition nameValue (arg : FlagArg) : option string :=
  match arg with
  | ArgNetworkAdapterName name => Some name
  | _ => None
  end.

Definition macValue (arg : FlagArg) : option string :=
  match arg with
  | ArgMacAddress macAddress => Some macAddress
  | _ => None
  end.

(** ** Tactics *)

(** Unfolds the sequencing of a run down to its triple. *)
Ltac run_prog :=
  cbv [mbind Prog_bind mret Prog_ret emit os_Exit panic getFlags setFlags
       outcome trace].

(** Proves that the hypotheses of a concrete run hold, by evaluation. *)
Ltac by_running :=
  unfold sending, parsed;
  repeat first
    [ reflexivity
    | solve [ cbn; lia | cbv [payloadLength eui48Length]; lia ]
    | match goal with
      | |- _ /\ _ => split
      | |- exists _, _ => eexists
      | |- Forall _ [] => constructor
      end ].

(** Splits a hypothesis [e ∈ t], for an explicit trace [t], into the events
    [e] can be, and drops the cases in which it is another event. *)
Ltac in_trace H :=
  repeat rewrite ?elem_of_app, ?elem_of_cons, ?elem_of_nil in H;
  destruct_or?; try discriminate; try done; simplify_eq.

(** Decides whether an explicit event is in an explicit trace. *)
Ltac find_in_trace :=
  repeat rewrite ?elem_of_app, ?elem_of_cons, ?elem_of_nil;
  repeat first [ left; reflexivity | right ].

(** Solves [Forall P (trace (m flags))] for a [m] built by sequencing from
    the primitive steps; [sequencing] splits a goal on a sequence into its
    two parts, and the lemmas of [trace_lemmas] close the calls. *)
Create HintDb trace_lemmas.

Ltac trace_Forall_with sequencing :=
  repeat first
    [ sequencing
    | match goal with
      | |- Forall _ (trace (match ?x with _ => _ end _)) => destruct x
      | |- Forall _ (trace ((if ?b then _ else _) _)) => destruct b
      | |- Forall _ (trace ((let '(_, _) := ?p in _) _)) => destruct p
      end
    | solve [ auto with trace_lemmas ]
    | solve [ cbv [trace emit os_Exit panic getFlags setFlags mret Prog_ret];
              cbn; repeat constructor ] ].

(** ** The payload builder *)

Lemma six_bytes (A : HardwareAddr) :
  length A = 6%nat -> exists a b c d e f, A = [a; b; c; d; e; f].
Proof.
  intros H.
  do 6 (destruct A as [|? A]; [discriminate H|]).
  destruct A; [|discriminate H].
  by do 6 eexists.
Qed.

(** On a 6-byte address the two loops never leave the array, and leave
    six [0xff] followed by sixteen copies of the address. *)
Lemma payloadOf_eui48 (A : HardwareAddr) :
  length A = 6%nat ->
  payloadOf (Some A) = Some (replicate 6 xff ++ mjoin (replicate 16 A)).
Proof.
  intros H. destruct (six_bytes A H) as (a & b & c & d & e & f & ->).
  reflexivity.
Qed.

Lemma createWOLPayload_eui48 (flags : programFlags.t) (A : HardwareAddr) :
  programFlags.macAddress flags = Some A ->
  length A = 6%nat ->
  createWOLPayload flags
    = (Returns (replicate 6 xff ++ mjoin (replicate 16 A)), flags, []).
Proof.
  intros Hmac Hlen. unfold createWOLPayload. run_prog.
  by rewrite Hmac, (payloadOf_eui48 A Hlen).
Qed.

Lemma drop_copies (A : list byte) (n k : nat) :
  (k <= n)%nat ->
  drop (k * length A) (mjoin (replicate n A)) = mjoin (replicate (n - k) A).
Proof.
  revert k. induction n as [|n IH]; intros k Hk.
  - destruct k; [done|lia].
  - destruct k as [|k]; [done|].
    cbn [replicate mjoin list_join Nat.mul Nat.sub].
    rewrite drop_app_add'; [|done]. apply IH. lia.
Qed.

(** C1. For every 6-byte hardware address [A] held by [programFlags],
    [createWOLPayload] returns (without output, and leaving the flags as
    they are) a buffer of 102 bytes; its first 6 bytes are [0xff]; for
    every [k] in [0,16) the 6 bytes from position [6+6k] are [A], byte
    [6+6k+j] being byte [j] of [A]. *)
Theorem createWOLPayload_magic_packet (flags : programFlags.t) (A : HardwareAddr) :
  programFlags.macAddress flags = Some A ->
  length A = 6%nat ->
  exists payload : wolPayload,
    createWOLPayload flags = (Returns payload, flags, []) /\
    length payload = 102%nat /\
    take 6 payload = replicate 6 xff /\
    (forall k, (k < 16)%nat -> take 6 (drop (6 + 6 * k) payload) = A) /\
    (forall k j, (k < 16)%nat -> (j < 6)%nat ->
       payload !! (6 + 6 * k + j)%nat = A !! j).
Proof.
  intros Hmac Hlen.
  exists (replicate 6 xff ++ mjoin (replicate 16 A)).
  assert (Hdrop : forall k, (k < 16)%nat ->
            take 6 (drop (6 + 6 * k) (replicate 6 xff ++ mjoin (replicate 16 A))) = A).
  { intros k Hk.
    rewrite drop_app_add'; [|done].
    replace (6 * k)%nat with (k * length A)%nat by lia.
    rewrite drop_copies; [|lia].
    destruct (16 - k)%nat as [|m] eqn:Hm; [lia|].
    cbn [replicate mjoin list_join].
    rewrite take_app_length'; done. }
  split_and!.
  - by apply createWOLPayload_eui48.
  - rewrite length_app, length_replicate.
    rewrite length_join, fmap_replicate, sum_list_replicate. lia.
  - done.
  - exact Hdrop.
  - intros k j Hk Hj.
    pose proof (f_equal (fun l : list byte => l !! j) (Hdrop k Hk)) as E.
    cbv beta in E.
    rewrite lookup_take_lt, lookup_drop in E by done.
    exact E.
Qed.

Lemma createWOLPayload_magic_packet_witness :
  exists payload : wolPayload,
    createWOLPayload (programFlags.mk false (Some Host.target) "eth0")
      = (Returns payload, programFlags.mk false (Some Host.target) "eth0", []) /\
    length payload = 102%nat /\
    take 6 payload = replicate 6 xff /\
    (forall k, (k < 16)%nat -> take 6 (drop (6 + 6 * k) payload) = Host.target) /\
    (forall k j, (k < 16)%nat -> (j < 6)%nat ->
       payload !! (6 + 6 * k + j)%nat = Host.target !! j).
Proof.
  apply (createWOLPayload_magic_packet
           (programFlags.mk false (Some Host.target) "eth0") Host.target);
    reflexivity.
Defined.

(** ** The source address resolver *)

Lemma To4_idempotent (ip ip4 : IP) : To4 ip = Some ip4 -> To4 ip4 = Some ip4.
Proof.
  unfold To4. intros H.
  destruct (length ip =? 4)%nat eqn:H4.
  - injection H as <-. by rewrite H4.
  - destruct (_ && _) eqn:Hpre in H; [|discriminate].
    injection H as <-.
    repeat (apply andb_prop in Hpre as [Hpre _]).
    apply Nat.eqb_eq in Hpre.
    by rewrite length_drop, Hpre.
Qed.

(** On a 4-byte form [IsLoopback] is the test of the first byte. *)
Lemma IsLoopback_To4 (ip ip4 : IP) :
  To4 ip = Some ip4 -> IsLoopback ip4 = bool_decide (ip4 !! 0%nat = Some x7f).
Proof.
  intros H. unfold IsLoopback. by rewrite (To4_idempotent ip ip4 H).
Qed.

(** The loop returns at the first [*net.IPNet] entry with a usable address. *)
Lemma rangeAddresses_first (l : list Addr) :
  rangeAddresses l = firstQualifying usableIPNet l.
Proof.
  unfold firstQualifying.
  induction l as [|a l IH]; [done|].
  destruct a as [ip mask|ip zone]; cbn [rangeAddresses List.find].
  - unfold usableIPNet, usableIP; cbn [isIPNet addrIP andb].
    destruct (To4 ip) as [ip4|] eqn:H4; [|exact IH].
    rewrite (IsLoopback_To4 ip ip4 H4).
    destruct (bool_decide (ip4 !! 0%nat = Some x7f)); cbn [negb]; [exact IH|].
    cbn. by rewrite H4.
  - exact IH.
Qed.

(** On a list of [*net.IPNet] entries the entry the loop returns at is
    the first one whose address is IPv4 and not loopback. *)
Lemma firstQualifying_ipnets (l : list Addr) :
  Forall (fun a => isIPNet a = true) l ->
  firstQualifying usableIPNet l = firstQualifying usableAddr l.
Proof.
  intros Hnets. unfold firstQualifying. f_equal.
  induction Hnets as [|a l Ha _ IH]; [done|].
  cbn [List.find]. unfold usableIPNet, usableAddr in *. rewrite Ha. cbn [andb].
  by destruct (usableIP (addrIP a)).
Qed.

(** C4. For every list of addresses the system reports for an adapter
    ([Interface.Addrs] reports them as [*net.IPNet] entries), the resolver
    returns the first address in enumeration order that is an IPv4 address
    and not a loopback (127.0.0.0/8) address, in 4-byte form on port 7,
    passing over every IPv6 and loopback entry, and nil when there is
    none.  When the list is a real-v4 entry and two entries that do not
    qualify (loopback-v4, v6), in any order, it selects real-v4. *)
Theorem addressFromNetworkAdapter_first_usable_address
  (w : World) (ifi : Interface.t) (flags : programFlags.t) (l : list Addr) :
  net_Addrs w ifi = Ok l ->
  Forall (fun a => isIPNet a = true) l ->
  addressFromNetworkAdapter w ifi flags
    = (Returns (firstQualifying usableAddr l), flags, [CallAddrs ifi]) /\
  (forall lo real v6,
     l ≡ₚ [lo; real; v6] ->
     usableAddr real = true -> usableAddr lo = false -> usableAddr v6 = false ->
     addressFromNetworkAdapter w ifi flags
       = (Returns (Some (UDPAddr.mk (default [] (To4 (addrIP real))) wakeOnLanUDPPort)),
          flags, [CallAddrs ifi])).
Proof.
  intros Hl Hnets.
  assert (Hrun : addressFromNetworkAdapter w ifi flags
            = (Returns (firstQualifying usableAddr l), flags, [CallAddrs ifi])).
  { unfold addressFromNetworkAdapter. run_prog.
    by rewrite Hl, rangeAddresses_first, (firstQualifying_ipnets l Hnets). }
  split; [exact Hrun|].
  intros lo real v6 Hp Hreal Hlo Hv6. rewrite Hrun. do 3 f_equal.
  symmetry in Hp. apply permutations_Permutation in Hp. cbn in Hp.
  unfold firstQualifying.
  repeat (apply elem_of_cons in Hp as [-> | Hp];
          [cbn [List.find]; by rewrite ?Hlo, ?Hv6, Hreal|]).
  by apply elem_of_nil in Hp.
Qed.

Lemma addressFromNetworkAdapter_first_usable_address_witness :
  addressFromNetworkAdapter Host.aliased Host.eth0 init
    = (Returns (firstQualifying usableAddr
                  [Host.linkLocalV6; Host.loopbackV4; Host.realV4]),
       init, [CallAddrs Host.eth0]) /\
  addressFromNetworkAdapter Host.aliased Host.eth0 init
    = (Returns (Some (UDPAddr.mk [xc0; xa8; x01; x0a] wakeOnLanUDPPort)),
       init, [CallAddrs Host.eth0]).
Proof.
  destruct (addressFromNetworkAdapter_first_usable_address
              Host.aliased Host.eth0 init
              [Host.linkLocalV6; Host.loopbackV4; Host.realV4] eq_refl)
    as [Hrun Htrio].
  - repeat constructor.
  - split; [exact Hrun|].
    apply (Htrio Host.loopbackV4 Host.realV4 Host.linkLocalV6);
      [|reflexivity..].
    symmetry. apply permutations_Permutation. cbn.
    rewrite !elem_of_cons. tauto.
Defined.

(** ** Opening the socket *)

(** The resolver returns nil only after both lookups succeeded. *)
Lemma addressFromNetworkAdapterName_nil (w : World) (name : string) (flags : programFlags.t) :
  outcome (addressFromNetworkAdapterName w name flags) = Returns None ->
  exists ifi l,
    net_InterfaceByName w name = Ok ifi /\ net_Addrs w ifi = Ok l /\
    addressFromNetworkAdapterName w name flags
      = (Returns None, flags, [CallInterfaceByName name; CallAddrs ifi]).
Proof.
  unfold addressFromNetworkAdapterName, addressFromNetworkAdapter. run_prog.
  destruct (net_InterfaceByName w name) as [ifi|err] eqn:Hname; [|discriminate].
  destruct (net_Addrs w ifi) as [l|err] eqn:Haddrs; [|discriminate].
  cbn. intros [= Hnil]. rewrite Hnil. by exists ifi, l.
Qed.

(** C2 as stated fails on the host's loopback adapter, which has no
    qualifying address: the resolver returns nil, the socket is opened with
    a nil local address, the packet is sent and the process leaves with 0. *)
Lemma absent_address_is_not_fatal :
  outcome (addressFromNetworkAdapterName Host.world "lo"
             (programFlags.mk false (Some Host.target) "lo")) = Returns None /\
  openUDPConnection Host.world (programFlags.mk false (Some Host.target) "lo")
    = (Returns (UDPConn.mk (UDPAddr.mk [xc0; xa8; x01; x0a] 40000) remoteAddress),
       programFlags.mk false (Some Host.target) "lo",
       [CallInterfaceByName "lo"; CallAddrs Host.lo; CallDialUDP None remoteAddress]) /\
  exitStatus (outcome (run Host.world [ArgMacAddress "AA:BB:CC:DD:EE:FF";
                                       ArgNetworkAdapterName "lo"])) = 0 /\
  ~ absentAddressIsFatal Host.world (programFlags.mk false (Some Host.target) "lo").
Proof.
  split_and!; [reflexivity | reflexivity | reflexivity | ].
  intros H. destruct (H eq_refl) as [[code Hcode] _]. discriminate Hcode.
Qed.




(** ** Sending *)

(** C5. [sendWOLPayload] returns (success) if and only if the write
    reports no error and exactly 102 bytes; a write error ends the process
    with [wolPayloadSendingError], any other byte count with
    [notAllWOLPayloadBytesSentError], a code of its own; either way the
    payload is written once, whole, with no second attempt. *)
Theorem sendWOLPayload_success_iff_102_bytes
  (w : World) (udpConnection : UDPConn.t) (payload : wolPayload) (flags : programFlags.t) :
  let r := sendWOLPayload w udpConnection payload flags in
  let bytesWritten := (conn_Write w udpConnection payload).1 in
  let err := (conn_Write w udpConnection payload).2 in
  (outcome r = Returns tt <-> err = None /\ bytesWritten = 102) /\
  (err <> None -> outcome r = Exits wolPayloadSendingError) /\
  (err = None -> bytesWritten <> 102 ->
   outcome r = Exits notAllWOLPayloadBytesSentError) /\
  notAllWOLPayloadBytesSentError <> wolPayloadSendingError /\
  notAllWOLPayloadBytesSentError <> 0 /\
  wolPayloadSendingError <> 0 /\
  List.filter isWrite (trace r) = [CallWrite udpConnection payload].
Proof.
  cbv zeta. unfold sendWOLPayload. run_prog.
  destruct (conn_Write w udpConnection payload) as [bytesWritten [e|]]; cbn.
  - split_and!; try done. split; [done|]. by intros [? _].
  - change payloadLength with 102.
    destruct (bool_decide_reflect (bytesWritten = 102)) as [Hn|Hn]; cbn;
      split_and!; try done.
    split; [done|]. by intros [_ ?].
Qed.

Lemma sendWOLPayload_success_iff_102_bytes_witness :
  outcome (sendWOLPayload Host.writeShort
             (UDPConn.mk (UDPAddr.mk [xc0; xa8; x01; x0a] 7) remoteAddress)
             (replicate 6 xff ++ mjoin (replicate 16 Host.target)) init)
    = Exits notAllWOLPayloadBytesSentError /\
  outcome (sendWOLPayload Host.world
             (UDPConn.mk (UDPAddr.mk [xc0; xa8; x01; x0a] 7) remoteAddress)
             (replicate 6 xff ++ mjoin (replicate 16 Host.target)) init)
    = Returns tt.
Proof.
  split.
  - destruct (sendWOLPayload_success_iff_102_bytes Host.writeShort
                (UDPConn.mk (UDPAddr.mk [xc0; xa8; x01; x0a] 7) remoteAddress)
                (replicate 6 xff ++ mjoin (replicate 16 Host.target)) init)
      as (_ & _ & Hshort & _).
    apply Hshort; [reflexivity | cbn; lia].
  - destruct (sendWOLPayload_success_iff_102_bytes Host.world
                (UDPConn.mk (UDPAddr.mk [xc0; xa8; x01; x0a] 7) remoteAddress)
                (replicate 6 xff ++ mjoin (replicate 16 Host.target)) init)
      as (Hiff & _).
    apply Hiff. split; reflexivity.
Defined.

(** ** Whole runs *)

(** A property of every event of a run passes through sequencing. *)
Lemma bind_trace_Forall {A B : Type} (P : Event -> Prop)
  (m : Prog A) (k : A -> Prog B) (flags : programFlags.t) :
  Forall P (trace (m flags)) ->
  (forall a flags', Forall P (trace (k a flags'))) ->
  Forall P (trace ((m ≫= k) flags)).
Proof.
  intros Hm Hk. unfold trace in *. cbv [mbind Prog_bind].
  destruct (m flags) as [[[a|code|] flags'] t]; cbn in *; try done.
  specialize (Hk a flags').
  destruct (k a flags') as [[o flags''] t']; cbn in *.
  by apply Forall_app.
Qed.

Tactic Notation "trace_Forall" :=
  trace_Forall_with ltac:(apply bind_trace_Forall; [|intros ? ?]).

Lemma noSocket_dialsBroadcast (t : list Event) :
  Forall noSocket t -> Forall dialsBroadcast t.
Proof. intros H. eapply Forall_impl; [exact H|]. by intros []. Qed.

Lemma addressFromNetworkAdapter_noSocket (w : World) ifi flags :
  Forall noSocket (trace (addressFromNetworkAdapter w ifi flags)).
Proof. unfold addressFromNetworkAdapter. trace_Forall. Qed.
#[local] Hint Resolve addressFromNetworkAdapter_noSocket : trace_lemmas.

Lemma addressFromNetworkAdapterName_noSocket (w : World) name flags :
  Forall noSocket (trace (addressFromNetworkAdapterName w name flags)).
Proof. unfold addressFromNetworkAdapterName. trace_Forall. Qed.
#[local] Hint Resolve addressFromNetworkAdapterName_noSocket : trace_lemmas.

Lemma rangeNetworkAdapters_noSocket (w : World) ifs flags :
  Forall noSocket (trace (rangeNetworkAdapters w ifs flags)).
Proof.
  revert flags. induction ifs as [|ifi ifs IH]; intros flags;
    cbn [rangeNetworkAdapters]; trace_Forall.
Qed.
#[local] Hint Resolve rangeNetworkAdapters_noSocket : trace_lemmas.

Lemma listNetworkAdapters_noSocket (w : World) flags :
  Forall noSocket (trace (listNetworkAdapters w flags)).
Proof. unfold listNetworkAdapters. trace_Forall. Qed.

Lemma flag_Parse_noSocket (w : World) args flags :
  Forall noSocket (trace (flag_Parse w args flags)).
Proof.
  revert flags. induction args as [|arg args IH]; intros flags;
    cbn [flag_Parse]; [trace_Forall|].
  apply bind_trace_Forall; [|intros ? ?; apply IH].
  destruct arg; unfold parseMACAddressFlag; trace_Forall.
Qed.

Lemma parseProgramFlags_noSocket (w : World) args flags :
  Forall noSocket (trace (parseProgramFlags w args flags)).
Proof.
  unfold parseProgramFlags, checkParsedMACAddress.
  apply bind_trace_Forall; [apply flag_Parse_noSocket|intros ? ?].
  trace_Forall.
Qed.

Lemma wakeRemoteComputer_dialsBroadcast (w : World) flags :
  Forall dialsBroadcast (trace (wakeRemoteComputer w flags)).
Proof.
  unfold wakeRemoteComputer, openUDPConnection, createWOLPayload,
    sendWOLPayload, closeUDPConnection.
  trace_Forall.
Qed.

Lemma run_dialsBroadcast (w : World) args :
  Forall dialsBroadcast (trace (run w args)).
Proof.
  unfold run, main.
  apply bind_trace_Forall;
    [apply noSocket_dialsBroadcast, parseProgramFlags_noSocket|intros ? ?].
  apply bind_trace_Forall; [trace_Forall|intros flags ?].
  destruct (programFlags.listNetworkAdapters flags).
  - apply noSocket_dialsBroadcast, listNetworkAdapters_noSocket.
  - apply wakeRemoteComputer_dialsBroadcast.
Qed.

(** C8. In every run, whatever the flags, the adapters and the hardware
    address, each call of [net.DialUDP] has the remote endpoint
    255.255.255.255 on port 7. *)
Theorem remote_endpoint_is_broadcast_port_7
  (w : World) (args : list FlagArg) (laddr : option UDPAddr.t) (raddr : UDPAddr.t) :
  CallDialUDP laddr raddr ∈ trace (run w args) ->
  raddr = UDPAddr.mk [xff; xff; xff; xff] 7.
Proof.
  intros Hin.
  pose proof (run_dialsBroadcast w args) as Hall.
  rewrite Forall_forall in Hall. exact (Hall _ Hin).
Qed.

Lemma remote_endpoint_is_broadcast_port_7_witness :
  CallDialUDP (Some (UDPAddr.mk [xc0; xa8; x01; x0a] 7)) remoteAddress
    ∈ trace (run Host.world [ArgMacAddress "AA:BB:CC:DD:EE:FF";
                             ArgNetworkAdapterName "eth0"]) /\
  remoteAddress = UDPAddr.mk [xff; xff; xff; xff] 7.
Proof.
  assert (Hin : CallDialUDP (Some (UDPAddr.mk [xc0; xa8; x01; x0a] 7)) remoteAddress
                  ∈ trace (run Host.world [ArgMacAddress "AA:BB:CC:DD:EE:FF";
                                           ArgNetworkAdapterName "eth0"])).
  { match goal with
    | |- ?e ∈ ?t => let t' := eval vm_compute in t in change (e ∈ t')
    end.
    rewrite !elem_of_cons. do 2 right. left. reflexivity. }
  split; [exact Hin|].
  exact (remote_endpoint_is_broadcast_port_7 Host.world _ _ _ Hin).
Defined.

(** ** The address check before the builder *)

(** [flag.Parse] returns or leaves with [flagErrorExit]; it never panics. *)
Lemma flag_Parse_outcome (w : World) (args : list FlagArg) (flags : programFlags.t) :
  outcome (flag_Parse w args flags) = Returns tt \/
  outcome (flag_Parse w args flags) = Exits flagErrorExit.
Proof.
  revert flags. induction args as [|arg args IH]; intros flags; [by left|].
  cbn [flag_Parse]. destruct arg; unfold parseMACAddressFlag; run_prog; cbn.
  - specialize (IH (programFlags.mk value (programFlags.macAddress flags)
                                    (programFlags.networkAdapterName flags))).
    unfold outcome in IH. by destruct (flag_Parse _ _ _) as [[o ?] ?].
  - specialize (IH (programFlags.mk (programFlags.listNetworkAdapters flags)
                                    (programFlags.macAddress flags) name)).
    unfold outcome in IH. by destruct (flag_Parse _ _ _) as [[o ?] ?].
  - destruct (net_ParseMAC w macAddress) as [hw|err]; cbn; [|by right].
    specialize (IH (programFlags.mk (programFlags.listNetworkAdapters flags) (Some hw)
                                    (programFlags.networkAdapterName flags))).
    unfold outcome in IH. by destruct (flag_Parse _ _ _) as [[o ?] ?].
Qed.

(** When [parseProgramFlags] returns, [flag.Parse] returned with the same
    flags, and the program lists adapters or holds a 6-byte address. *)
Lemma parseProgramFlags_returns (w : World) (args : list FlagArg)
  (flags0 flags : programFlags.t) (t : list Event) :
  parseProgramFlags w args flags0 = (Returns tt, flags, t) ->
  flag_Parse w args flags0 = (Returns tt, flags, t) /\
  (programFlags.listNetworkAdapters flags = true \/
   exists hw, programFlags.macAddress flags = Some hw /\ length hw = 6%nat).
Proof.
  unfold parseProgramFlags, checkParsedMACAddress. run_prog.
  destruct (flag_Parse w args flags0) as [[[[]|code|] flags1] t1]; [|done|done].
  destruct (programFlags.listNetworkAdapters flags1) eqn:Hlist; cbn.
  - intros [= <- <-]. rewrite app_nil_r. auto.
  - destruct (programFlags.macAddress flags1) as [hw|] eqn:Hmac; cbn; [|done].
    destruct (bool_decide_reflect (Z.of_nat (length hw) ≠ eui48Length)) as [Hne|Heq];
      cbn; [done|].
    intros [= <- <-]. rewrite app_nil_r. split; [done|]. right. exists hw.
    split; [done|]. unfold eui48Length in Heq. lia.
Qed.

Lemma parseProgramFlags_no_panic (w : World) (args : list FlagArg) (flags0 : programFlags.t) :
  outcome (parseProgramFlags w args flags0) <> Panics.
Proof.
  unfold parseProgramFlags, checkParsedMACAddress. run_prog.
  pose proof (flag_Parse_outcome w args flags0) as Hparse. unfold outcome in Hparse.
  destruct (flag_Parse w args flags0) as [[[[]|code|] flags1] t1]; cbn;
    [|done|by destruct Hparse].
  destruct (programFlags.listNetworkAdapters flags1); cbn; [done|].
  destruct (programFlags.macAddress flags1) as [hw|]; cbn; [|done].
  by destruct (bool_decide _).
Qed.

Lemma addressFromNetworkAdapter_no_panic (w : World) ifi flags :
  outcome (addressFromNetworkAdapter w ifi flags) <> Panics.
Proof.
  unfold addressFromNetworkAdapter. run_prog.
  by destruct (net_Addrs w ifi).
Qed.

Lemma rangeNetworkAdapters_no_panic (w : World) ifs flags :
  outcome (rangeNetworkAdapters w ifs flags) <> Panics.
Proof.
  revert flags. induction ifs as [|ifi ifs IH]; intros flags; [done|].
  cbn [rangeNetworkAdapters]. unfold addressFromNetworkAdapter. run_prog.
  destruct (net_Addrs w ifi) as [l|err]; cbn; [|done].
  specialize (IH flags). unfold outcome in IH.
  destruct (rangeAddresses l); cbn;
    by destruct (rangeNetworkAdapters w ifs flags) as [[o ?] ?].
Qed.

Lemma listNetworkAdapters_no_panic (w : World) flags :
  outcome (listNetworkAdapters w flags) <> Panics.
Proof.
  unfold listNetworkAdapters. run_prog.
  destruct (net_Interfaces w) as [ifs|err]; cbn; [|done].
  pose proof (rangeNetworkAdapters_no_panic w ifs flags) as H. unfold outcome in H.
  by destruct (rangeNetworkAdapters w ifs flags) as [[o ?] ?].
Qed.

(** With a 6-byte address in [programFlags] the send path does not panic. *)
Lemma wakeRemoteComputer_no_panic (w : World) flags hw :
  programFlags.macAddress flags = Some hw -> length hw = 6%nat ->
  outcome (wakeRemoteComputer w flags) <> Panics.
Proof.
  intros Hmac Hlen.
  unfold wakeRemoteComputer, openUDPConnection, addressFromNetworkAdapterName,
    addressFromNetworkAdapter, createWOLPayload, sendWOLPayload, closeUDPConnection.
  run_prog.
  destruct (net_InterfaceByName w _) as [ifi|err]; cbn; [|done].
  destruct (net_Addrs w ifi) as [l|err]; cbn; [|done].
  destruct (net_DialUDP w _ _) as [c|err]; cbn; [|done].
  rewrite Hmac, (payloadOf_eui48 hw Hlen). cbn.
  destruct (conn_Write w c _) as [n [e|]]; cbn; [done|].
  by destruct (bool_decide _).
Qed.

(** C7. A run never panics; whenever [parseProgramFlags] returns and the
    program is to send, [programFlags] holds an address of exactly 6
    bytes, on which [createWOLPayload] returns; and an address of another
    length, parsed without listing, ends the run in [parseProgramFlags]
    with [macAddressNotEUI48Error], before any call of the send path. *)
Theorem address_length_checked_before_payload (w : World) (args : list FlagArg) :
  outcome (run w args) <> Panics /\
  (forall flags t,
     parseProgramFlags w args init = (Returns tt, flags, t) ->
     programFlags.listNetworkAdapters flags = false ->
     exists hw payload,
       programFlags.macAddress flags = Some hw /\ length hw = 6%nat /\
       createWOLPayload flags = (Returns payload, flags, [])) /\
  (forall flags t hw,
     flag_Parse w args init = (Returns tt, flags, t) ->
     programFlags.listNetworkAdapters flags = false ->
     programFlags.macAddress flags = Some hw ->
     length hw <> 6%nat ->
     parseProgramFlags w args init
       = (Exits macAddressNotEUI48Error, flags, t ++ [Stderr MsgNotEUI48]) /\
     run w args = (Exits macAddressNotEUI48Error, flags, t ++ [Stderr MsgNotEUI48])).
Proof.
  split_and!.
  - unfold run, main. run_prog.
    pose proof (parseProgramFlags_no_panic w args init) as Hparse.
    destruct (parseProgramFlags w args init) as [[[[]|code|] flags] t] eqn:Hrun;
      cbn; [|done|done].
    apply parseProgramFlags_returns in Hrun as [_ Hflags].
    destruct (programFlags.listNetworkAdapters flags) eqn:Hlist.
    + pose proof (listNetworkAdapters_no_panic w flags) as H. unfold outcome in H.
      by destruct (listNetworkAdapters w flags) as [[o ?] ?].
    + destruct Hflags as [|(hw & Hmac & Hlen)]; [done|].
      pose proof (wakeRemoteComputer_no_panic w flags hw Hmac Hlen) as H.
      unfold outcome in H.
      by destruct (wakeRemoteComputer w flags) as [[o ?] ?].
  - intros flags t Hrun Hlist.
    apply parseProgramFlags_returns in Hrun as [_ [Hflags|(hw & Hmac & Hlen)]];
      [congruence|].
    exists hw, (replicate 6 xff ++ mjoin (replicate 16 hw)).
    by rewrite (createWOLPayload_eui48 flags hw Hmac Hlen).
  - intros flags t hw Hparse Hlist Hmac Hlen.
    assert (parseProgramFlags w args init
              = (Exits macAddressNotEUI48Error, flags, t ++ [Stderr MsgNotEUI48])) as Hrun.
    { unfold parseProgramFlags, checkParsedMACAddress. run_prog.
      rewrite Hparse, Hlist, Hmac. cbn.
      rewrite bool_decide_true; [done|]. unfold eui48Length. lia. }
    split; [exact Hrun|].
    unfold run, main. run_prog. by rewrite Hrun.
Qed.

Lemma address_length_checked_before_payload_witness :
  run Host.world [ArgMacAddress "01:23:45:67:89:ab:cd:ef"; ArgNetworkAdapterName "eth0"]
    = (Exits macAddressNotEUI48Error,
       programFlags.mk false (Some Host.eui64) "eth0", [Stderr MsgNotEUI48]).
Proof.
  destruct (address_length_checked_before_payload Host.world
              [ArgMacAddress "01:23:45:67:89:ab:cd:ef"; ArgNetworkAdapterName "eth0"])
    as (_ & _ & Hreject).
  apply (Hreject (programFlags.mk false (Some Host.eui64) "eth0") [] Host.eui64);
    [reflexivity | reflexivity | reflexivity | cbn; lia].
Defined.

(** ** Listing the adapters *)

Lemma rangeNetworkAdapters_cons_fetched (w : World) ifi ifs flags :
  addrsFetched w ifi ->
  rangeNetworkAdapters w (ifi :: ifs) flags
    = (let '(o, flags', t) := rangeNetworkAdapters w ifs flags in
       (o, flags', adapterEvents w ifi ++ t)).
Proof.
  intros [l Hl]. cbn [rangeNetworkAdapters].
  unfold adapterEvents, adapterLine, resolved, addressFromNetworkAdapter.
  run_prog. rewrite Hl. cbn.
  destruct (rangeAddresses l) as [a|]; cbn;
    by destruct (rangeNetworkAdapters w ifs flags) as [[o flags'] t].
Qed.

(** The loop over adapters whose addresses are all fetched runs to its end. *)
Lemma rangeNetworkAdapters_all_fetched (w : World) ifs flags :
  Forall (addrsFetched w) ifs ->
  rangeNetworkAdapters w ifs flags
    = (Returns tt, flags, concat (map (adapterEvents w) ifs)).
Proof.
  induction 1 as [|ifi ifs Hifi _ IH]; [done|].
  by rewrite (rangeNetworkAdapters_cons_fetched w ifi ifs flags Hifi), IH.
Qed.

(** The loop stops at the first adapter whose addresses are not fetched. *)
Lemma rangeNetworkAdapters_stops (w : World) pre ifi post err flags :
  Forall (addrsFetched w) pre ->
  net_Addrs w ifi = Err err ->
  rangeNetworkAdapters w (pre ++ ifi :: post) flags
    = (Exits networkAdapterAddressesFetchingError, flags,
       concat (map (adapterEvents w) pre)
         ++ [CallAddrs ifi; Stderr (MsgAddressesFetching (Interface.Index ifi) err)]).
Proof.
  intros Hpre Herr. induction Hpre as [|b pre Hb _ IH].
  - cbn [app rangeNetworkAdapters]. unfold addressFromNetworkAdapter. run_prog.
    by rewrite Herr.
  - cbn [app]. rewrite (rangeNetworkAdapters_cons_fetched w b _ flags Hb), IH.
    cbn [map concat]. by rewrite app_assoc.
Qed.

Lemma addrsCalls_app (t1 t2 : list Event) :
  addrsCalls (t1 ++ t2) = addrsCalls t1 ++ addrsCalls t2.
Proof. apply omap_app. Qed.

Lemma stdoutLines_app (t1 t2 : list Event) :
  stdoutLines (t1 ++ t2) = stdoutLines t1 ++ stdoutLines t2.
Proof. apply omap_app. Qed.

Lemma addrsCalls_adapterEvents (w : World) (ifs : list Interface.t) :
  addrsCalls (concat (map (adapterEvents w) ifs)) = ifs.
Proof.
  induction ifs as [|ifi ifs IH]; [done|].
  cbn [map concat]. rewrite addrsCalls_app, IH.
  unfold adapterEvents. by destruct (adapterLine w ifi).
Qed.

Lemma stdoutLines_adapterEvents (w : World) (ifs : list Interface.t) :
  stdoutLines (concat (map (adapterEvents w) ifs)) = omap (adapterLine w) ifs.
Proof.
  induction ifs as [|ifi ifs IH]; [done|].
  cbn [map concat omap list_omap]. rewrite stdoutLines_app, IH.
  unfold adapterEvents. by destruct (adapterLine w ifi).
Qed.

Lemma run_listing (w : World) :
  run w [ArgListNetworkAdapters true]
    = listNetworkAdapters w (programFlags.mk true None "").
Proof.
  unfold run, main, parseProgramFlags, checkParsedMACAddress. cbn [flag_Parse].
  run_prog. cbn.
  by destruct (listNetworkAdapters w _) as [[o flags] t].
Qed.

(** C9. In adapter-listing mode the adapters are taken in the order the
    system gives them; when fetching the addresses of one of them fails,
    the adapters before it have been processed, that adapter is not
    skipped, none after it is asked, and the process ends with
    [networkAdapterAddressesFetchingError]. *)
Theorem listNetworkAdapters_stops_at_failed_adapter
  (w : World) (flags : programFlags.t) (ifs : list Interface.t) :
  net_Interfaces w = Ok ifs ->
  (forall pre ifi post err,
     ifs = pre ++ ifi :: post ->
     Forall (addrsFetched w) pre ->
     net_Addrs w ifi = Err err ->
     listNetworkAdapters w flags
       = (Exits networkAdapterAddressesFetchingError, flags,
          CallInterfaces :: concat (map (adapterEvents w) pre)
            ++ [CallAddrs ifi; Stderr (MsgAddressesFetching (Interface.Index ifi) err)]) /\
     addrsCalls (trace (listNetworkAdapters w flags)) = pre ++ [ifi] /\
     exitStatus (outcome (run w [ArgListNetworkAdapters true]))
       = networkAdapterAddressesFetchingError) /\
  (Forall (addrsFetched w) ifs ->
   addrsCalls (trace (listNetworkAdapters w flags)) = ifs).
Proof.
  intros Hifs.
  assert (Hlist : forall flags', listNetworkAdapters w flags'
            = (let '(o, f, t) := rangeNetworkAdapters w ifs flags' in
               (o, f, CallInterfaces :: t))).
  { intros flags'. unfold listNetworkAdapters. run_prog. rewrite Hifs.
    by destruct (rangeNetworkAdapters w ifs flags') as [[o f] t]. }
  split.
  - intros pre ifi post err -> Hpre Herr.
    assert (Hrun : forall flags', listNetworkAdapters w flags'
              = (Exits networkAdapterAddressesFetchingError, flags',
                 CallInterfaces :: concat (map (adapterEvents w) pre)
                   ++ [CallAddrs ifi;
                       Stderr (MsgAddressesFetching (Interface.Index ifi) err)])).
    { intros flags'.
      by rewrite Hlist, (rangeNetworkAdapters_stops w pre ifi post err flags' Hpre Herr). }
    split_and!.
    + apply Hrun.
    + rewrite Hrun. unfold trace. cbn [snd].
      change (CallInterfaces :: ?t) with ([CallInterfaces] ++ t).
      by rewrite !addrsCalls_app, addrsCalls_adapterEvents.
    + by rewrite run_listing, Hrun.
  - intros Hall.
    rewrite Hlist, (rangeNetworkAdapters_all_fetched w ifs flags Hall).
    unfold trace. cbn [snd].
    change (CallInterfaces :: ?t) with ([CallInterfaces] ++ t).
    by rewrite addrsCalls_app, addrsCalls_adapterEvents.
Qed.

Lemma listNetworkAdapters_stops_at_failed_adapter_witness :
  listNetworkAdapters Host.addrsFailing (programFlags.mk true None "")
    = (Exits networkAdapterAddressesFetchingError, programFlags.mk true None "",
       [CallInterfaces; CallAddrs Host.lo; CallAddrs Host.eth0;
        Stderr (MsgAddressesFetching 2 "permission denied")]) /\
  addrsCalls (trace (listNetworkAdapters Host.addrsFailing (programFlags.mk true None "")))
    = [Host.lo; Host.eth0] /\
  exitStatus (outcome (run Host.addrsFailing [ArgListNetworkAdapters true])) = 5.
Proof.
  destruct (listNetworkAdapters_stops_at_failed_adapter Host.addrsFailing
              (programFlags.mk true None "") [Host.lo; Host.eth0] eq_refl)
    as [Hstop _].
  apply (Hstop [Host.lo] Host.eth0 [] "permission denied");
    [reflexivity | | reflexivity].
  constructor; [|constructor]. by eexists.
Defined.

(** C10. In adapter-listing mode, when the addresses of every adapter are
    fetched, the listing returns and the process leaves with 0; the lines
    printed are, in the order of the adapters, one line for each adapter
    for which the resolver returns an address, and none for an adapter for
    which it returns nil. *)
Theorem listNetworkAdapters_prints_resolved_adapters
  (w : World) (flags : programFlags.t) (ifs : list Interface.t) :
  net_Interfaces w = Ok ifs ->
  Forall (addrsFetched w) ifs ->
  outcome (listNetworkAdapters w flags) = Returns tt /\
  exitStatus (outcome (run w [ArgListNetworkAdapters true])) = 0 /\
  stdoutLines (trace (listNetworkAdapters w flags))
    = omap (fun ifi =>
              match resolved w ifi with
              | Some a => Some (MsgAdapterLine (UDPAddr.IP a) (Interface.Name ifi))
              | None => None
              end) ifs.
Proof.
  intros Hifs Hall.
  assert (Hrun : forall flags', listNetworkAdapters w flags'
            = (Returns tt, flags', CallInterfaces :: concat (map (adapterEvents w) ifs))).
  { intros flags'. unfold listNetworkAdapters. run_prog. rewrite Hifs.
    by rewrite (rangeNetworkAdapters_all_fetched w ifs flags' Hall). }
  split_and!.
  - by rewrite Hrun.
  - by rewrite run_listing, Hrun.
  - rewrite Hrun. unfold trace. cbn [snd].
    change (CallInterfaces :: ?t) with ([CallInterfaces] ++ t).
    rewrite stdoutLines_app, stdoutLines_adapterEvents. reflexivity.
Qed.

Lemma listNetworkAdapters_prints_resolved_adapters_witness :
  outcome (listNetworkAdapters Host.world (programFlags.mk true None "")) = Returns tt /\
  exitStatus (outcome (run Host.world [ArgListNetworkAdapters true])) = 0 /\
  stdoutLines (trace (listNetworkAdapters Host.world (programFlags.mk true None "")))
    = [MsgAdapterLine [xc0; xa8; x01; x0a] "eth0"].
Proof.
  apply (listNetworkAdapters_prints_resolved_adapters Host.world
           (programFlags.mk true None "") [Host.lo; Host.eth0] eq_refl).
  constructor; [|constructor; [|constructor]]; by eexists.
Defined.

(** ** Exit codes *)

Lemma flag_Parse_unparseable (w : World) before s after err flags :
  Forall (accepted w) before ->
  net_ParseMAC w s = Err err ->
  outcome (flag_Parse w (before ++ ArgMacAddress s :: after) flags) = Exits flagErrorExit.
Proof.
  intros Hbefore Herr. revert flags.
  induction Hbefore as [|arg before Harg _ IH]; intros flags.
  - cbn [app flag_Parse]. unfold parseMACAddressFlag. run_prog. by rewrite Herr.
  - cbn [app flag_Parse]. destruct arg as [value|name|s']; unfold parseMACAddressFlag;
      run_prog; cbn.
    + specialize (IH (programFlags.mk value (programFlags.macAddress flags)
                                      (programFlags.networkAdapterName flags))).
      unfold outcome in IH. destruct (flag_Parse _ _ _) as [[o ?] ?]. exact IH.
    + specialize (IH (programFlags.mk (programFlags.listNetworkAdapters flags)
                                      (programFlags.macAddress flags) name)).
      unfold outcome in IH. destruct (flag_Parse _ _ _) as [[o ?] ?]. exact IH.
    + destruct Harg as [hw Hhw]. rewrite Hhw. cbn.
      specialize (IH (programFlags.mk (programFlags.listNetworkAdapters flags) (Some hw)
                                      (programFlags.networkAdapterName flags))).
      unfold outcome in IH. destruct (flag_Parse _ _ _) as [[o ?] ?]. exact IH.
Qed.

(** After [flag.Parse] returned, the run is the address check and then
    the mode the flags select. *)
Lemma run_parsed (w : World) (args : list FlagArg) (flags : programFlags.t) :
  parsed w args flags ->
  outcome (run w args)
    = outcome ((checkParsedMACAddress ;;
                flags' ← getFlags;
                if programFlags.listNetworkAdapters flags' then listNetworkAdapters w
                else wakeRemoteComputer w) flags).
Proof.
  intros [t Hparse]. unfold run, main, parseProgramFlags. run_prog. rewrite Hparse.
  destruct (checkParsedMACAddress flags) as [[[[]|code|] flags1] t1]; cbn; try done.
  destruct (programFlags.listNetworkAdapters flags1).
  - by destruct (listNetworkAdapters w flags1) as [[o ?] ?].
  - by destruct (wakeRemoteComputer w flags1) as [[o ?] ?].
Qed.

Lemma run_sending (w : World) (args : list FlagArg) flags hw :
  sending w args flags hw ->
  outcome (run w args) = outcome (wakeRemoteComputer w flags).
Proof.
  intros (Hparsed & Hlist & Hmac & Hlen).
  rewrite (run_parsed w args flags Hparsed).
  unfold checkParsedMACAddress. run_prog. rewrite Hlist, Hmac. cbn.
  rewrite bool_decide_false; [|unfold eui48Length; lia].
  cbn. rewrite Hlist.
  by destruct (wakeRemoteComputer w flags) as [[o ?] ?].
Qed.

(** The send path once the socket is open. *)
Lemma wakeRemoteComputer_dialled (w : World) flags hw udpConnection payload :
  programFlags.macAddress flags = Some hw ->
  dialled w flags (Ok udpConnection) ->
  payloadOf (Some hw) = Some payload ->
  outcome (wakeRemoteComputer w flags)
    = match conn_Write w udpConnection payload with
      | (_, Some _) => Exits wolPayloadSendingError
      | (bytesWritten, None) =>
          if bool_decide (bytesWritten = payloadLength) then Returns tt
          else Exits notAllWOLPayloadBytesSentError
      end.
Proof.
  intros Hmac (ifi & l & Hifi & Hl & Hdial) Hpayload.
  unfold wakeRemoteComputer, openUDPConnection, addressFromNetworkAdapterName,
    addressFromNetworkAdapter, createWOLPayload, sendWOLPayload, closeUDPConnection.
  run_prog. rewrite Hifi. cbn. rewrite Hl. cbn. rewrite Hdial. cbn.
  rewrite Hmac, Hpayload. cbn.
  destruct (conn_Write w udpConnection payload) as [n [e|]]; cbn; [done|].
  by destruct (bool_decide (n = payloadLength)).
Qed.

(** C6. Each of the eight fatal conditions (address that does not parse,
    no address, address of the wrong length, adapter lookup failure,
    address enumeration failure, socket-open failure, send failure,
    partial send) ends the run with the exit code of that condition; the
    eight codes are non-zero and pairwise distinct; and a run in which
    every step succeeds returns from [main], so leaves with 0. *)
Theorem fatal_conditions_exit_with_distinct_codes :
  (forall c w args,
     occurs c w args ->
     outcome (run w args) = Exits (exitCodeOf c) /\
     exitStatus (outcome (run w args)) = exitCodeOf c) /\
  (forall c, exitCodeOf c <> 0) /\
  (forall c c', exitCodeOf c = exitCodeOf c' -> c = c') /\
  (forall w args,
     succeeds w args ->
     outcome (run w args) = Returns tt /\ exitStatus (outcome (run w args)) = 0).
Proof.
  split_and!.
  - intros c w args Hc.
    assert (outcome (run w args) = Exits (exitCodeOf c)) as Hrun;
      [|by rewrite Hrun].
    destruct c; cbn [occurs exitCodeOf] in *.
    + destruct Hc as (before & s & after & err & -> & Hbefore & Herr).
      pose proof (flag_Parse_unparseable w before s after err init Hbefore Herr) as H.
      unfold run, main, parseProgramFlags, outcome in *. revert H. run_prog.
      by destruct (flag_Parse w _ init) as [[[[]|code|] ?] ?]; cbn; intros [= ->].
    + destruct Hc as (flags & Hparsed & Hlist & Hmac).
      rewrite (run_parsed w args flags Hparsed).
      unfold checkParsedMACAddress. run_prog. by rewrite Hlist, Hmac.
    + destruct Hc as (flags & hw & Hparsed & Hlist & Hmac & Hlen).
      rewrite (run_parsed w args flags Hparsed).
      unfold checkParsedMACAddress. run_prog. rewrite Hlist, Hmac. cbn.
      rewrite bool_decide_true; [done|unfold eui48Length; lia].
    + destruct Hc as (flags & hw & err & Hsend & Herr).
      rewrite (run_sending w args flags hw Hsend).
      unfold wakeRemoteComputer, openUDPConnection, addressFromNetworkAdapterName.
      run_prog. by rewrite Herr.
    + destruct Hc as (flags & hw & ifi & err & Hsend & Hifi & Herr).
      rewrite (run_sending w args flags hw Hsend).
      unfold wakeRemoteComputer, openUDPConnection, addressFromNetworkAdapterName,
        addressFromNetworkAdapter.
      run_prog. rewrite Hifi. cbn. by rewrite Herr.
    + destruct Hc as (flags & hw & err & Hsend & ifi & l & Hifi & Hl & Hdial).
      rewrite (run_sending w args flags hw Hsend).
      unfold wakeRemoteComputer, openUDPConnection, addressFromNetworkAdapterName,
        addressFromNetworkAdapter.
      run_prog. rewrite Hifi. cbn. rewrite Hl. cbn. by rewrite Hdial.
    + destruct Hc as (flags & hw & n & err & Hsend & c & payload & Hdial & Hp & Hwrite).
      rewrite (run_sending w args flags hw Hsend).
      destruct Hsend as (_ & _ & Hmac & _).
      by rewrite (wakeRemoteComputer_dialled w flags hw c payload Hmac Hdial Hp), Hwrite.
    + destruct Hc as (flags & hw & n & Hsend & (c & payload & Hdial & Hp & Hwrite) & Hn).
      rewrite (run_sending w args flags hw Hsend).
      destruct Hsend as (_ & _ & Hmac & _).
      rewrite (wakeRemoteComputer_dialled w flags hw c payload Hmac Hdial Hp), Hwrite.
      by rewrite bool_decide_false.
  - by intros [].
  - by intros [] [].
  - intros w args (flags & hw & Hsend & c & payload & Hdial & Hp & Hwrite).
    assert (outcome (run w args) = Returns tt) as Hrun; [|by rewrite Hrun].
    rewrite (run_sending w args flags hw Hsend).
    destruct Hsend as (_ & _ & Hmac & _).
    rewrite (wakeRemoteComputer_dialled w flags hw c payload Hmac Hdial Hp), Hwrite.
    by rewrite bool_decide_true.
Qed.

Lemma fatal_conditions_exit_with_distinct_codes_witness :
  exitStatus (outcome (run Host.world [ArgMacAddress "zz"])) = 2 /\
  exitStatus (outcome (run Host.world [ArgNetworkAdapterName "eth0"])) = 4 /\
  exitStatus (outcome (run Host.world [ArgMacAddress "01:23:45:67:89:ab:cd:ef"])) = 3 /\
  exitStatus (outcome (run Host.world [ArgMacAddress "AA:BB:CC:DD:EE:FF";
                                       ArgNetworkAdapterName "wlan9"])) = 6 /\
  exitStatus (outcome (run Host.addrsFailing [ArgMacAddress "AA:BB:CC:DD:EE:FF";
                                              ArgNetworkAdapterName "eth0"])) = 5 /\
  exitStatus (outcome (run Host.dialFailing [ArgMacAddress "AA:BB:CC:DD:EE:FF";
                                             ArgNetworkAdapterName "eth0"])) = 9 /\
  exitStatus (outcome (run Host.writeFailing [ArgMacAddress "AA:BB:CC:DD:EE:FF";
                                              ArgNetworkAdapterName "eth0"])) = 10 /\
  exitStatus (outcome (run Host.writeShort [ArgMacAddress "AA:BB:CC:DD:EE:FF";
                                            ArgNetworkAdapterName "eth0"])) = 8 /\
  exitStatus (outcome (run Host.world [ArgMacAddress "AA:BB:CC:DD:EE:FF";
                                       ArgNetworkAdapterName "eth0"])) = 0.
Proof.
  destruct fatal_conditions_exit_with_distinct_codes as (Hfatal & _ & _ & Hsuccess).
  split_and!.
  - refine (proj2 (Hfatal UnparseableAddress _ _ _)).
    exists [], "zz", [], "invalid MAC address". by_running.
  - refine (proj2 (Hfatal MissingAddress _ _ _)).
    exists (programFlags.mk false None "eth0"). by_running.
  - refine (proj2 (Hfatal WrongAddressLength _ _ _)).
    exists (programFlags.mk false (Some Host.eui64) ""), Host.eui64. by_running.
  - refine (proj2 (Hfatal AdapterLookupFailure _ _ _)).
    exists (programFlags.mk false (Some Host.target) "wlan9"), Host.target,
      "no such network interface".
    by_running.
  - refine (proj2 (Hfatal AddressEnumerationFailure _ _ _)).
    exists (programFlags.mk false (Some Host.target) "eth0"), Host.target,
      Host.eth0, "permission denied".
    by_running.
  - refine (proj2 (Hfatal SocketOpenFailure _ _ _)).
    exists (programFlags.mk false (Some Host.target) "eth0"), Host.target,
      "network is unreachable".
    split; [by_running|].
    exists Host.eth0, [Host.realV4; Host.linkLocalV6]. by_running.
  - refine (proj2 (Hfatal SendFailure _ _ _)).
    exists (programFlags.mk false (Some Host.target) "eth0"), Host.target,
      0, "operation not permitted".
    split; [by_running|].
    exists (UDPConn.mk (UDPAddr.mk [xc0; xa8; x01; x0a] 7) remoteAddress),
      (replicate 6 xff ++ mjoin (replicate 16 Host.target)).
    split; [exists Host.eth0, [Host.realV4; Host.linkLocalV6]|]; by_running.
  - refine (proj2 (Hfatal PartialSend _ _ _)).
    exists (programFlags.mk false (Some Host.target) "eth0"), Host.target, 60.
    split; [by_running|]. split; [|by_running].
    exists (UDPConn.mk (UDPAddr.mk [xc0; xa8; x01; x0a] 7) remoteAddress),
      (replicate 6 xff ++ mjoin (replicate 16 Host.target)).
    split; [exists Host.eth0, [Host.realV4; Host.linkLocalV6]|]; by_running.
  - refine (proj2 (Hsuccess _ _ _)).
    exists (programFlags.mk false (Some Host.target) "eth0"), Host.target.
    split; [by_running|].
    exists (UDPConn.mk (UDPAddr.mk [xc0; xa8; x01; x0a] 7) remoteAddress),
      (replicate 6 xff ++ mjoin (replicate 16 Host.target)).
    split; [exists Host.eth0, [Host.realV4; Host.linkLocalV6]|]; by_running.
Defined.


(** ** The shape of a run *)

(** [flag.Parse] returns in silence, or leaves on one flag error, after
    the error line and the usage text. *)
Lemma flag_Parse_cases (w : World) (args : list FlagArg) (flags0 : programFlags.t) :
  (exists flags, flag_Parse w args flags0 = (Returns tt, flags, [])) \/
  (exists flags s e,
     flag_Parse w args flags0
       = (Exits flagErrorExit, flags, [Stderr (MsgFlagError s e); Stderr MsgUsage])).
Proof.
  revert flags0. induction args as [|arg args IH]; intros flags0.
  - left. by exists flags0.
  - cbn [flag_Parse]. destruct arg as [value|name|s]; unfold parseMACAddressFlag;
      run_prog; cbn.
    + destruct (IH (programFlags.mk value (programFlags.macAddress flags0)
                                    (programFlags.networkAdapterName flags0)))
        as [[f ->]|(f & s & e & ->)]; [left|right]; eauto.
    + destruct (IH (programFlags.mk (programFlags.listNetworkAdapters flags0)
                                    (programFlags.macAddress flags0) name))
        as [[f ->]|(f & s & e & ->)]; [left|right]; eauto.
    + destruct (net_ParseMAC w s) as [hw|err]; cbn; [|right; eauto].
      destruct (IH (programFlags.mk (programFlags.listNetworkAdapters flags0) (Some hw)
                                    (programFlags.networkAdapterName flags0)))
        as [[f ->]|(f & s' & e & ->)]; [left|right]; eauto.
Qed.

(** [parseProgramFlags] returns in silence, with flags that list or hold a
    6-byte address; or [flag.Parse] leaves on a flag error; or
    [flag.Parse] returns and the address check leaves on one line of the
    error stream, with the code of that line. *)
Lemma parseProgramFlags_cases (w : World) (args : list FlagArg) :
  (parseProgramFlags w args init = (Returns tt, flagsAfterParse w args, []) /\
   parsed w args (flagsAfterParse w args) /\
   (programFlags.listNetworkAdapters (flagsAfterParse w args) = true \/
    exists hw, programFlags.macAddress (flagsAfterParse w args) = Some hw /\
               length hw = 6%nat)) \/
  (exists s e,
     flag_Parse w args init
       = (Exits flagErrorExit, flagsAfterParse w args,
          [Stderr (MsgFlagError s e); Stderr MsgUsage]) /\
     parseProgramFlags w args init
       = (Exits flagErrorExit, flagsAfterParse w args,
          [Stderr (MsgFlagError s e); Stderr MsgUsage])) \/
  (exists m code,
     parsed w args (flagsAfterParse w args) /\
     parseProgramFlags w args init = (Exits code, flagsAfterParse w args, [Stderr m]) /\
     messageCode m = Some code /\
     code <> flagErrorExit).
Proof.
  unfold flagsAfterParse, parsed, parseProgramFlags, checkParsedMACAddress. run_prog.
  destruct (flag_Parse_cases w args init) as [[f ->]|(f & s & e & ->)]; cbn;
    [|right; left; by eauto].
  destruct (programFlags.listNetworkAdapters f) eqn:Hlist; cbn; [left; by eauto|].
  destruct (programFlags.macAddress f) as [hw|] eqn:Hmac; cbn.
  2:{ right. right. exists MsgNoMACAddress, macAddressNotInformedError.
      split_and!; eauto; by vm_compute. }
  destruct (bool_decide_reflect (Z.of_nat (length hw) ≠ eui48Length)) as [Hne|Heq];
    cbn.
  { right. right. exists MsgNotEUI48, macAddressNotEUI48Error.
    split_and!; eauto; by vm_compute. }
  left. split_and!; eauto. right. exists hw. split; [done|].
  unfold eui48Length in Heq. lia.
Qed.

(** A run ends in [flag.Parse] on a flag error, or in the address check,
    or is the listing, or is the send path on a 6-byte address, on the
    flags [flag.Parse] left. *)
Lemma run_cases (w : World) (args : list FlagArg) :
  (exists s e,
     flag_Parse w args init
       = (Exits flagErrorExit, flagsAfterParse w args,
          [Stderr (MsgFlagError s e); Stderr MsgUsage]) /\
     run w args
       = (Exits flagErrorExit, flagsAfterParse w args,
          [Stderr (MsgFlagError s e); Stderr MsgUsage])) \/
  (exists m code,
     parsed w args (flagsAfterParse w args) /\
     run w args = (Exits code, flagsAfterParse w args, [Stderr m]) /\
     messageCode m = Some code /\
     code <> flagErrorExit) \/
  (parsed w args (flagsAfterParse w args) /\
   programFlags.listNetworkAdapters (flagsAfterParse w args) = true /\
   run w args = listNetworkAdapters w (flagsAfterParse w args)) \/
  (exists hw,
     parsed w args (flagsAfterParse w args) /\
     programFlags.listNetworkAdapters (flagsAfterParse w args) = false /\
     programFlags.macAddress (flagsAfterParse w args) = Some hw /\
     length hw = 6%nat /\
     run w args = wakeRemoteComputer w (flagsAfterParse w args)).
Proof.
  destruct (parseProgramFlags_cases w args)
    as [(Hrun & Hparsed & Hflags)|[(s & e & Hparse & Hrun)
                                  |(m & code & Hparsed & Hrun & Hcode & Hne)]].
  - right. right.
    assert (Hmain : run w args
              = if programFlags.listNetworkAdapters (flagsAfterParse w args)
                then listNetworkAdapters w (flagsAfterParse w args)
                else wakeRemoteComputer w (flagsAfterParse w args)).
    { unfold run, main. run_prog. rewrite Hrun. cbn.
      destruct (programFlags.listNetworkAdapters (flagsAfterParse w args)).
      - by destruct (listNetworkAdapters w _) as [[o f] t].
      - by destruct (wakeRemoteComputer w _) as [[o f] t]. }
    rewrite Hmain.
    destruct (programFlags.listNetworkAdapters (flagsAfterParse w args)) eqn:Hlist.
    + left. by split_and!.
    + right. destruct Hflags as [|(hw & Hmac & Hlen)]; [done|].
      exists hw. by split_and!.
  - left. exists s, e. split; [done|].
    unfold run, main. run_prog. by rewrite Hrun.
  - right. left. exists m, code. split_and!; [done| |done|done].
    unfold run, main. run_prog. by rewrite Hrun.
Qed.

(** The same, for what a run does with sockets and with the flags: a run
    that ends before the listing or the send path has used no socket. *)
Lemma run_cases_socket (w : World) (args : list FlagArg) :
  (exists code t,
     run w args = (Exits code, flagsAfterParse w args, t) /\ Forall noSocket t) \/
  (parsed w args (flagsAfterParse w args) /\
   programFlags.listNetworkAdapters (flagsAfterParse w args) = true /\
   run w args = listNetworkAdapters w (flagsAfterParse w args)) \/
  (exists hw,
     parsed w args (flagsAfterParse w args) /\
     programFlags.listNetworkAdapters (flagsAfterParse w args) = false /\
     programFlags.macAddress (flagsAfterParse w args) = Some hw /\
     length hw = 6%nat /\
     run w args = wakeRemoteComputer w (flagsAfterParse w args)).
Proof.
  destruct (run_cases w args)
    as [(s & e & _ & Hrun)|[(m & code & _ & Hrun & _)|[Hlisting|Hsending]]].
  - left. eexists _, _. split; [exact Hrun|]. by repeat constructor.
  - left. eexists _, _. split; [exact Hrun|]. by repeat constructor.
  - right. by left.
  - right. by right.
Qed.

(** The send path on a 6-byte address, by the answers of the host. *)
Lemma wakeRemoteComputer_tree (w : World) (flags : programFlags.t) (hw : HardwareAddr) :
  programFlags.macAddress flags = Some hw ->
  length hw = 6%nat ->
  wakeRemoteComputer w flags
    = let name := programFlags.networkAdapterName flags in
      match net_InterfaceByName w name with
      | Err err =>
          (Exits networkAdapterFetchingError, flags,
           [CallInterfaceByName name; Stderr (MsgAdapterFetching name err)])
      | Ok ifi =>
          match net_Addrs w ifi with
          | Err err =>
              (Exits networkAdapterAddressesFetchingError, flags,
               [CallInterfaceByName name; CallAddrs ifi;
                Stderr (MsgAddressesFetching (Interface.Index ifi) err)])
          | Ok l =>
              let laddr := rangeAddresses l in
              match net_DialUDP w laddr remoteAddress with
              | Err err =>
                  (Exits udpConnectionError, flags,
                   [CallInterfaceByName name; CallAddrs ifi;
                    CallDialUDP laddr remoteAddress;
                    Stderr (MsgConnecting remoteAddress laddr err)])
              | Ok c =>
                  let opened :=
                    [CallInterfaceByName name; CallAddrs ifi;
                     CallDialUDP laddr remoteAddress;
                     Stdout (MsgSending (UDPConn.RemoteAddr c) (UDPConn.LocalAddr c));
                     CallWrite c (magicPacket hw)] in
                  match conn_Write w c (magicPacket hw) with
                  | (_, Some e) =>
                      (Exits wolPayloadSendingError, flags,
                       opened ++ [Stderr (MsgSendingError e)])
                  | (bytesWritten, None) =>
                      if bool_decide (bytesWritten = payloadLength)
                      then (Returns tt, flags, opened ++ [Stdout MsgSent; CallClose c])
                      else (Exits notAllWOLPayloadBytesSentError, flags,
                            opened ++ [Stderr (MsgNotAllBytes payloadLength)])
                  end
              end
          end
      end.
Proof.
  intros Hmac Hlen.
  unfold wakeRemoteComputer, openUDPConnection, addressFromNetworkAdapterName,
    addressFromNetworkAdapter, createWOLPayload, sendWOLPayload, closeUDPConnection,
    magicPacket.
  run_prog. cbv zeta.
  destruct (net_InterfaceByName w _) as [ifi|err]; cbn; [|done].
  destruct (net_Addrs w ifi) as [l|err]; cbn; [|done].
  destruct (net_DialUDP w _ _) as [c|err]; cbn; [|done].
  rewrite Hmac, (payloadOf_eui48 hw Hlen). cbn.
  destruct (conn_Write w c _) as [n [e|]]; cbn; [done|].
  by destruct (bool_decide (n = payloadLength)).
Qed.

(** The adapters are all fetched, or there is a first one that is not. *)
Lemma first_unfetched (w : World) (ifs : list Interface.t) :
  Forall (addrsFetched w) ifs \/
  exists pre ifi post err,
    ifs = pre ++ ifi :: post /\ Forall (addrsFetched w) pre /\
    net_Addrs w ifi = Err err.
Proof.
  induction ifs as [|ifi ifs IH]; [by left|].
  destruct (net_Addrs w ifi) as [l|err] eqn:Hl.
  - assert (addrsFetched w ifi) as Hifi by by exists l.
    destruct IH as [Hall|(pre & b & post & err & -> & Hpre & Herr)].
    + left. by constructor.
    + right. exists (ifi :: pre), b, post, err. split_and!; [done| |done].
      by constructor.
  - right. exists [], ifi, ifs, err. by split_and!.
Qed.

(** The listing, by the answers of the host. *)
Lemma listNetworkAdapters_cases (w : World) (flags : programFlags.t) :
  (exists err,
     net_Interfaces w = Err err /\
     listNetworkAdapters w flags
       = (Exits networkAdaptersFetchingError, flags,
          [CallInterfaces; Stderr (MsgAdaptersFetching err)])) \/
  (exists ifs,
     net_Interfaces w = Ok ifs /\ Forall (addrsFetched w) ifs /\
     listNetworkAdapters w flags
       = (Returns tt, flags, CallInterfaces :: concat (map (adapterEvents w) ifs))) \/
  (exists pre ifi post err,
     net_Interfaces w = Ok (pre ++ ifi :: post) /\
     Forall (addrsFetched w) pre /\
     net_Addrs w ifi = Err err /\
     listNetworkAdapters w flags
       = (Exits networkAdapterAddressesFetchingError, flags,
          CallInterfaces :: concat (map (adapterEvents w) pre)
            ++ [CallAddrs ifi; Stderr (MsgAddressesFetching (Interface.Index ifi) err)])).
Proof.
  unfold listNetworkAdapters. run_prog.
  destruct (net_Interfaces w) as [ifs|err]; cbn; [|left; by eauto].
  right.
  destruct (first_unfetched w ifs) as [Hall|(pre & ifi & post & err & -> & Hpre & Herr)].
  - left. exists ifs. rewrite (rangeNetworkAdapters_all_fetched w ifs flags Hall).
    by split_and!.
  - right. exists pre, ifi, post, err.
    rewrite (rangeNetworkAdapters_stops w pre ifi post err flags Hpre Herr).
    by split_and!.
Qed.

(** ** The builder on addresses of any length *)

Lemma payloadOf_short (mac : option HardwareAddr) :
  (length (default [] mac) < 6)%nat -> payloadOf mac = None.
Proof.
  destruct mac as [A|]; cbn [default]; [|reflexivity].
  intros H.
  do 6 (destruct A as [|? A]; [reflexivity|]).
  cbn in H. lia.
Qed.

Lemma payloadOf_long (A : HardwareAddr) :
  (6 <= length A)%nat -> payloadOf (Some A) = Some (magicPacket (take 6 A)).
Proof.
  intros H.
  do 6 (destruct A as [|? A]; [cbn in H; lia|]).
  reflexivity.
Qed.

(** X1. [createWOLPayload] alone does not check its input: on a nil
    address or one of fewer than 6 bytes it panics (index out of range),
    and on one of 6 bytes or more it returns the magic packet of the first
    six bytes, ignoring the rest. *)
Theorem createWOLPayload_bounds (flags : programFlags.t) :
  ((length (default [] (programFlags.macAddress flags)) < 6)%nat ->
   createWOLPayload flags = (Panics, flags, [])) /\
  ((6 <= length (default [] (programFlags.macAddress flags)))%nat ->
   createWOLPayload flags
     = (Returns (magicPacket (take 6 (default [] (programFlags.macAddress flags)))),
        flags, [])).
Proof.
  unfold createWOLPayload. run_prog. split; intros H.
  - by rewrite (payloadOf_short _ H).
  - destruct (programFlags.macAddress flags) as [A|]; cbn [default] in *;
      [|cbn in H; lia].
    by rewrite (payloadOf_long A H).
Qed.

Lemma createWOLPayload_bounds_witness :
  createWOLPayload (programFlags.mk false (Some [xaa; xbb; xcc]) "eth0")
    = (Panics, programFlags.mk false (Some [xaa; xbb; xcc]) "eth0", []) /\
  createWOLPayload (programFlags.mk false (Some Host.eui64) "eth0")
    = (Returns (magicPacket [x01; x23; x45; x67; x89; xab]),
       programFlags.mk false (Some Host.eui64) "eth0", []).
Proof.
  split.
  - apply (proj1 (createWOLPayload_bounds
                    (programFlags.mk false (Some [xaa; xbb; xcc]) "eth0"))).
    cbn. lia.
  - apply (proj2 (createWOLPayload_bounds
                    (programFlags.mk false (Some Host.eui64) "eth0"))).
    cbn. lia.
Defined.

(** ** What the resolver returns *)

Lemma To4_length (ip ip4 : IP) : To4 ip = Some ip4 -> length ip4 = 4%nat.
Proof.
  unfold To4. intros H.
  destruct (length ip =? 4)%nat eqn:H4.
  - injection H as <-. by apply Nat.eqb_eq.
  - destruct (_ && _) eqn:Hpre in H; [|discriminate].
    injection H as <-.
    repeat (apply andb_prop in Hpre as [Hpre _]).
    apply Nat.eqb_eq in Hpre.
    rewrite length_drop, Hpre. done.
Qed.

Lemma rangeAddresses_Some (l : list Addr) (a : UDPAddr.t) :
  rangeAddresses l = Some a ->
  UDPAddr.Port a = wakeOnLanUDPPort /\
  exists ip mask,
    IPNet ip mask ∈ l /\ To4 ip = Some (UDPAddr.IP a) /\
    UDPAddr.IP a !! 0%nat <> Some x7f.
Proof.
  induction l as [|[ip mask|ip zone] l IH]; cbn [rangeAddresses]; [done| |].
  - destruct (To4 ip) as [ip4|] eqn:H4.
    + rewrite (IsLoopback_To4 ip ip4 H4).
      destruct (bool_decide_reflect (ip4 !! 0%nat = Some x7f)) as [Hlo|Hlo].
      * intros H. destruct (IH H) as (Hport & ip' & mask' & Hin & Hrest).
        split; [done|]. exists ip', mask'. split; [|done]. by right.
      * intros [= <-]. split; [done|]. exists ip, mask. cbn.
        split_and!; [by left|done|done].
    + intros H. destruct (IH H) as (Hport & ip' & mask' & Hin & Hrest).
      split; [done|]. exists ip', mask'. split; [|done]. by right.
  - intros H. destruct (IH H) as (Hport & ip' & mask' & Hin & Hrest).
    split; [done|]. exists ip', mask'. split; [|done]. by right.
Qed.

Lemma rangeAddresses_None (l : list Addr) :
  rangeAddresses l = None <->
  forall ip mask, IPNet ip mask ∈ l -> usableIP ip = false.
Proof.
  induction l as [|[ip mask|ip zone] l IH]; cbn [rangeAddresses].
  - split; [|done]. intros _ ip mask Hin. by apply elem_of_nil in Hin.
  - unfold usableIP in *. destruct (To4 ip) as [ip4|] eqn:H4.
    + rewrite (IsLoopback_To4 ip ip4 H4).
      destruct (bool_decide (ip4 !! 0%nat = Some x7f)) eqn:Hlo.
      * rewrite IH. split.
        -- intros H ip' mask' [[= -> ->]|Hin]%elem_of_cons; [|by eapply H].
           by rewrite H4, Hlo.
        -- intros H ip' mask' Hin. eapply H. by right.
      * split; [done|]. intros H. specialize (H ip mask (list_elem_of_here _ _)).
        by rewrite H4, Hlo in H.
    + rewrite IH. split.
      * intros H ip' mask' [[= -> ->]|Hin]%elem_of_cons; [|by eapply H].
        by rewrite H4.
      * intros H ip' mask' Hin. eapply H. by right.
  - rewrite IH. split.
    + intros H ip' mask' [[=]|Hin]%elem_of_cons. by eapply H.
    + intros H ip' mask' Hin. eapply H. by right.
Qed.

(** X2. Whatever the system reports for an adapter, an address the
    resolver returns is on port 7 and is the 4-byte form of the address of
    one of the adapter's IP-network entries, with a first byte other than
    127; and the resolver returns nil exactly when the addresses are
    fetched and no IP-network entry has a non-loopback IPv4 address (as on
    an adapter with only loopback and IPv6 addresses). *)
Theorem addressFromNetworkAdapter_result
  (w : World) (ifi : Interface.t) (flags : programFlags.t) :
  (forall a,
     outcome (addressFromNetworkAdapter w ifi flags) = Returns (Some a) ->
     UDPAddr.Port a = 7 /\
     length (UDPAddr.IP a) = 4%nat /\
     UDPAddr.IP a !! 0%nat <> Some x7f /\
     exists l ip mask,
       net_Addrs w ifi = Ok l /\ IPNet ip mask ∈ l /\ To4 ip = Some (UDPAddr.IP a)) /\
  (outcome (addressFromNetworkAdapter w ifi flags) = Returns None <->
   exists l,
     net_Addrs w ifi = Ok l /\
     forall ip mask, IPNet ip mask ∈ l -> usableIP ip = false).
Proof.
  unfold addressFromNetworkAdapter. run_prog.
  destruct (net_Addrs w ifi) as [l|err]; cbn.
  - split.
    + intros a [= Ha].
      destruct (rangeAddresses_Some l a Ha) as (Hport & ip & mask & Hin & H4 & Hlo).
      split_and!; [done|by eapply To4_length|done|by exists l, ip, mask].
    + split.
      * intros [= H]. exists l. split; [done|]. by apply rangeAddresses_None.
      * intros (l' & [= <-] & H). apply rangeAddresses_None in H. by rewrite H.
  - split; [done|]. split; [done|]. by intros (l & ? & _).
Qed.

Lemma addressFromNetworkAdapter_result_witness :
  (UDPAddr.Port (UDPAddr.mk [xc0; xa8; x01; x0a] 7) = 7 /\
   length (UDPAddr.IP (UDPAddr.mk [xc0; xa8; x01; x0a] 7)) = 4%nat /\
   UDPAddr.IP (UDPAddr.mk [xc0; xa8; x01; x0a] 7) !! 0%nat <> Some x7f /\
   exists l ip mask,
     net_Addrs Host.aliased Host.eth0 = Ok l /\ IPNet ip mask ∈ l /\
     To4 ip = Some (UDPAddr.IP (UDPAddr.mk [xc0; xa8; x01; x0a] 7))) /\
  outcome (addressFromNetworkAdapter Host.world Host.lo init) = Returns None.
Proof.
  split.
  - apply (proj1 (addressFromNetworkAdapter_result Host.aliased Host.eth0 init)).
    reflexivity.
  - apply (proj2 (addressFromNetworkAdapter_result Host.world Host.lo init)).
    exists [Host.loopbackV4; Host.loopbackV6]. split; [reflexivity|].
    intros ip mask Hin. rewrite !elem_of_cons, elem_of_nil in Hin.
    destruct Hin as [[= -> _]|[[= -> _]|[]]]; reflexivity.
Defined.

(** ** What a run sends, and on which socket *)

Lemma noSocket_not_in (t : list Event) (e : Event) :
  Forall noSocket t -> e ∈ t -> noSocket e.
Proof. intros Hall Hin. rewrite Forall_forall in Hall. by apply Hall. Qed.

(** X3. In every run, a write to the socket is the only one of the run;
    its bytes are the magic packet of the 6-byte address [flag.Parse]
    left in [programFlags]; and its socket is the one [net.DialUDP]
    returned, earlier in the run, for the broadcast address. *)
Theorem run_writes_magic_packet_once
  (w : World) (args : list FlagArg) (c : UDPConn.t) (b : list byte) :
  CallWrite c b ∈ trace (run w args) ->
  exists hw laddr,
    programFlags.macAddress (flagsAfterParse w args) = Some hw /\
    length hw = 6%nat /\
    b = magicPacket hw /\
    net_DialUDP w laddr remoteAddress = Ok c /\
    (exists before after,
       trace (run w args) = before ++ CallWrite c b :: after /\
       CallDialUDP laddr remoteAddress ∈ before) /\
    List.filter isWrite (trace (run w args)) = [CallWrite c b].
Proof.
  intros Hin.
  destruct (run_cases_socket w args)
    as [(code & t & Hrun & Hno)|[(_ & _ & Hrun)|(hw & _ & _ & Hmac & Hlen & Hrun)]].
  - rewrite Hrun in Hin. by destruct (noSocket_not_in _ _ Hno Hin).
  - rewrite Hrun in Hin.
    by destruct (noSocket_not_in _ _ (listNetworkAdapters_noSocket w _) Hin).
  - rewrite Hrun, (wakeRemoteComputer_tree w _ hw Hmac Hlen) in *. cbv zeta in *.
    destruct (net_InterfaceByName w _) as [ifi|err]; [|cbn in Hin; in_trace Hin].
    destruct (net_Addrs w ifi) as [l|err]; [|cbn in Hin; in_trace Hin].
    destruct (net_DialUDP w (rangeAddresses l) remoteAddress) as [c'|err] eqn:Hdial;
      [|cbn in Hin; in_trace Hin].
    exists hw, (rangeAddresses l).
    destruct (conn_Write w c' (magicPacket hw)) as [n [e|]];
      [|destruct (bool_decide (n = payloadLength))];
      cbn in Hin; in_trace Hin;
      (split_and!; [done|done|done|done| |done]);
      eexists [_; _; _; _], _; (split; [reflexivity|find_in_trace]).
Qed.

Lemma run_writes_magic_packet_once_witness :
  exists hw laddr,
    programFlags.macAddress
      (flagsAfterParse Host.writeShort [ArgMacAddress "AA:BB:CC:DD:EE:FF";
                                        ArgNetworkAdapterName "eth0"]) = Some hw /\
    length hw = 6%nat /\
    magicPacket Host.target = magicPacket hw /\
    net_DialUDP Host.writeShort laddr remoteAddress
      = Ok (UDPConn.mk (UDPAddr.mk [xc0; xa8; x01; x0a] 7) remoteAddress) /\
    (exists before after,
       trace (run Host.writeShort [ArgMacAddress "AA:BB:CC:DD:EE:FF";
                                   ArgNetworkAdapterName "eth0"])
         = before ++ CallWrite (UDPConn.mk (UDPAddr.mk [xc0; xa8; x01; x0a] 7)
                                           remoteAddress)
                               (magicPacket Host.target) :: after /\
       CallDialUDP laddr remoteAddress ∈ before) /\
    List.filter isWrite
      (trace (run Host.writeShort [ArgMacAddress "AA:BB:CC:DD:EE:FF";
                                   ArgNetworkAdapterName "eth0"]))
      = [CallWrite (UDPConn.mk (UDPAddr.mk [xc0; xa8; x01; x0a] 7) remoteAddress)
                   (magicPacket Host.target)].
Proof.
  apply (run_writes_magic_packet_once Host.writeShort
           [ArgMacAddress "AA:BB:CC:DD:EE:FF"; ArgNetworkAdapterName "eth0"]).
  match goal with
  | |- ?e ∈ ?t => let t' := eval vm_compute in t in
                  let e' := eval vm_compute in e in change (e' ∈ t')
  end.
  find_in_trace.
Defined.

(** X4. The socket is closed only by a run that returns: the close is
    deferred after the send, so a run that leaves on a failed or partial
    write, or on any other error, closes nothing.  A run that returns
    after opening a socket closes that socket, as its last step. *)
Theorem socket_closed_only_after_successful_send (w : World) (args : list FlagArg) :
  (forall c,
     CallClose c ∈ trace (run w args) ->
     outcome (run w args) = Returns tt /\
     exists laddr before,
       net_DialUDP w laddr remoteAddress = Ok c /\
       trace (run w args) = before ++ [CallClose c] /\
       CallDialUDP laddr remoteAddress ∈ before) /\
  (forall code c,
     outcome (run w args) = Exits code -> CallClose c ∉ trace (run w args)) /\
  (forall laddr raddr,
     CallDialUDP laddr raddr ∈ trace (run w args) ->
     outcome (run w args) = Returns tt ->
     exists c, net_DialUDP w laddr raddr = Ok c /\ CallClose c ∈ trace (run w args)).
Proof.
  destruct (run_cases_socket w args)
    as [(code & t & Hrun & Hno)|[(_ & _ & Hrun)|(hw & _ & _ & Hmac & Hlen & Hrun)]].
  - rewrite Hrun. split_and!.
    + intros c Hin. by destruct (noSocket_not_in _ _ Hno Hin).
    + intros ? c _ Hin. by destruct (noSocket_not_in _ _ Hno Hin).
    + intros laddr raddr Hin. by destruct (noSocket_not_in _ _ Hno Hin).
  - rewrite Hrun.
    pose proof (listNetworkAdapters_noSocket w (flagsAfterParse w args)) as Hno.
    split_and!.
    + intros c Hin. by destruct (noSocket_not_in _ _ Hno Hin).
    + intros ? c _ Hin. by destruct (noSocket_not_in _ _ Hno Hin).
    + intros laddr raddr Hin. by destruct (noSocket_not_in _ _ Hno Hin).
  - rewrite Hrun, (wakeRemoteComputer_tree w _ hw Hmac Hlen). cbv zeta.
    destruct (net_InterfaceByName w _) as [ifi|err]; cbn;
      [|split_and!; [intros c Hin|intros ? c _ Hin|intros laddr raddr Hin];
        in_trace Hin].
    destruct (net_Addrs w ifi) as [l|err]; cbn;
      [|split_and!; [intros c Hin|intros ? c _ Hin|intros laddr raddr Hin];
        in_trace Hin].
    destruct (net_DialUDP w (rangeAddresses l) remoteAddress) as [c'|err] eqn:Hdial;
      cbn; [|split_and!; [intros c Hin|intros ? c _ Hin|intros laddr raddr Hin Hout];
             try discriminate; in_trace Hin].
    destruct (conn_Write w c' (magicPacket hw)) as [n [e|]];
      [|destruct (bool_decide (n = payloadLength))]; cbn;
      (split_and!; [intros c Hin|intros ? c Hout Hin|intros laddr raddr Hin Hout];
       try discriminate; in_trace Hin).
    + split; [done|]. exists (rangeAddresses l). eexists [_; _; _; _; _; _].
      split_and!; [done|reflexivity|find_in_trace].
    + exists c'. split; [done|]. find_in_trace.
Qed.

Lemma socket_closed_only_after_successful_send_witness :
  (outcome (run Host.world [ArgMacAddress "AA:BB:CC:DD:EE:FF";
                            ArgNetworkAdapterName "eth0"]) = Returns tt /\
   exists laddr before,
     net_DialUDP Host.world laddr remoteAddress
       = Ok (UDPConn.mk (UDPAddr.mk [xc0; xa8; x01; x0a] 7) remoteAddress) /\
     trace (run Host.world [ArgMacAddress "AA:BB:CC:DD:EE:FF";
                            ArgNetworkAdapterName "eth0"])
       = before ++ [CallClose (UDPConn.mk (UDPAddr.mk [xc0; xa8; x01; x0a] 7)
                                          remoteAddress)] /\
     CallDialUDP laddr remoteAddress ∈ before) /\
  CallClose (UDPConn.mk (UDPAddr.mk [xc0; xa8; x01; x0a] 7) remoteAddress)
    ∉ trace (run Host.writeShort [ArgMacAddress "AA:BB:CC:DD:EE:FF";
                                  ArgNetworkAdapterName "eth0"]).
Proof.
  split.
  - apply (proj1 (socket_closed_only_after_successful_send Host.world
                    [ArgMacAddress "AA:BB:CC:DD:EE:FF"; ArgNetworkAdapterName "eth0"])).
    match goal with
    | |- ?e ∈ ?t => let t' := eval vm_compute in t in
                    let e' := eval vm_compute in e in change (e' ∈ t')
    end.
    find_in_trace.
  - apply (proj1 (proj2 (socket_closed_only_after_successful_send Host.writeShort
                    [ArgMacAddress "AA:BB:CC:DD:EE:FF"; ArgNetworkAdapterName "eth0"]))
             notAllWOLPayloadBytesSentError).
    reflexivity.
Defined.

(** X5. In every run, a call of [net.DialUDP] is the only one of the run,
    and its local address is the one the resolver selects on the adapter
    that [net.InterfaceByName] returns for the name in [programFlags]:
    the first IP-network entry with a non-loopback IPv4 address, or nil. *)
Theorem run_dials_once_from_named_adapter
  (w : World) (args : list FlagArg) (laddr : option UDPAddr.t) (raddr : UDPAddr.t) :
  CallDialUDP laddr raddr ∈ trace (run w args) ->
  List.filter isDial (trace (run w args)) = [CallDialUDP laddr raddr] /\
  exists ifi l,
    net_InterfaceByName w (programFlags.networkAdapterName (flagsAfterParse w args))
      = Ok ifi /\
    net_Addrs w ifi = Ok l /\
    laddr = firstQualifying usableIPNet l.
Proof.
  intros Hin.
  destruct (run_cases_socket w args)
    as [(code & t & Hrun & Hno)|[(_ & _ & Hrun)|(hw & _ & _ & Hmac & Hlen & Hrun)]].
  - rewrite Hrun in Hin. by destruct (noSocket_not_in _ _ Hno Hin).
  - rewrite Hrun in Hin.
    by destruct (noSocket_not_in _ _ (listNetworkAdapters_noSocket w _) Hin).
  - rewrite Hrun, (wakeRemoteComputer_tree w _ hw Hmac Hlen) in *. cbv zeta in *.
    destruct (net_InterfaceByName w _) as [ifi|err]; [|cbn in Hin; in_trace Hin].
    destruct (net_Addrs w ifi) as [l|err] eqn:Hl; [|cbn in Hin; in_trace Hin].
    destruct (net_DialUDP w (rangeAddresses l) remoteAddress) as [c'|err];
      [destruct (conn_Write w c' (magicPacket hw)) as [n [e|]];
       [|destruct (bool_decide (n = payloadLength))]|];
      cbn in Hin; in_trace Hin;
      (split; [reflexivity|]); exists ifi, l;
      by rewrite <- rangeAddresses_first.
Qed.

Lemma run_dials_once_from_named_adapter_witness :
  List.filter isDial (trace (run Host.aliased [ArgMacAddress "AA:BB:CC:DD:EE:FF";
                                               ArgNetworkAdapterName "eth0"]))
    = [CallDialUDP (Some (UDPAddr.mk [xc0; xa8; x01; x0a] 7)) remoteAddress] /\
  exists ifi l,
    net_InterfaceByName Host.aliased
      (programFlags.networkAdapterName
         (flagsAfterParse Host.aliased [ArgMacAddress "AA:BB:CC:DD:EE:FF";
                                        ArgNetworkAdapterName "eth0"])) = Ok ifi /\
    net_Addrs Host.aliased ifi = Ok l /\
    Some (UDPAddr.mk [xc0; xa8; x01; x0a] 7) = firstQualifying usableIPNet l.
Proof.
  apply (run_dials_once_from_named_adapter Host.aliased
           [ArgMacAddress "AA:BB:CC:DD:EE:FF"; ArgNetworkAdapterName "eth0"]).
  match goal with
  | |- ?e ∈ ?t => let t' := eval vm_compute in t in
                  let e' := eval vm_compute in e in change (e' ∈ t')
  end.
  find_in_trace.
Defined.

(** ** The listing mode *)

Lemma parsed_silent (w : World) (args : list FlagArg) (flags : programFlags.t) :
  parsed w args flags -> flag_Parse w args init = (Returns tt, flags, []).
Proof.
  intros [t Hparse].
  destruct (flag_Parse_cases w args init) as [[f Hf]|(f & s & e & Hf)];
    rewrite Hf in Hparse; by simplify_eq.
Qed.

Lemma run_listing_mode (w : World) (args : list FlagArg) (flags : programFlags.t) :
  parsed w args flags ->
  programFlags.listNetworkAdapters flags = true ->
  run w args = listNetworkAdapters w flags.
Proof.
  intros Hparsed Hlist.
  unfold run, main, parseProgramFlags, checkParsedMACAddress. run_prog.
  rewrite (parsed_silent w args flags Hparsed). cbn. rewrite Hlist. cbn.
  rewrite Hlist. by destruct (listNetworkAdapters w flags) as [[o f] t].
Qed.

(** X6. When the flags ask for the listing, whatever [-mac-address] and
    [-network-adapter-name] were given (none, or an address of any
    length), the run opens and uses no socket, and its outcome is decided
    by the host alone: it leaves with [networkAdaptersFetchingError] (7)
    exactly when the adapters cannot be fetched, with
    [networkAdapterAddressesFetchingError] (5) exactly when the addresses
    of some adapter cannot, and returns exactly when all can. *)
Theorem listing_mode_outcome
  (w : World) (args : list FlagArg) (flags : programFlags.t) :
  parsed w args flags ->
  programFlags.listNetworkAdapters flags = true ->
  Forall noSocket (trace (run w args)) /\
  (outcome (run w args) = Exits networkAdaptersFetchingError <->
   exists err, net_Interfaces w = Err err) /\
  (outcome (run w args) = Exits networkAdapterAddressesFetchingError <->
   exists ifs ifi err,
     net_Interfaces w = Ok ifs /\ ifi ∈ ifs /\ net_Addrs w ifi = Err err) /\
  (outcome (run w args) = Returns tt <->
   exists ifs, net_Interfaces w = Ok ifs /\ Forall (addrsFetched w) ifs).
Proof.
  intros Hparsed Hlist. rewrite (run_listing_mode w args flags Hparsed Hlist).
  split; [apply listNetworkAdapters_noSocket|].
  destruct (listNetworkAdapters_cases w flags)
    as [(err & Hifs & ->)|[(ifs & Hifs & Hall & ->)
                          |(pre & ifi & post & err & Hifs & Hpre & Herr & ->)]];
    cbn; split_and!.
  - split; [eauto|done].
  - split; [intros [= H]; vm_compute in H; discriminate H|].
    intros (ifs & ? & ? & ? & _). congruence.
  - split; [done|]. intros (ifs & ? & _). congruence.
  - split; [done|]. intros (? & ?). congruence.
  - split; [done|].
    intros (ifs' & ifi & err & Hifs' & Hin & Herr).
    assert (ifs' = ifs) as -> by congruence.
    rewrite Forall_forall in Hall. destruct (Hall ifi Hin) as [l Hl]. congruence.
  - split; [eauto|done].
  - split; [intros [= H]; vm_compute in H; discriminate H|].
    intros (? & ?). congruence.
  - split; [|done].
    intros _. exists (pre ++ ifi :: post), ifi, err. split_and!; [done| |done].
    apply elem_of_app. right. by left.
  - split; [done|].
    intros (ifs' & Hifs' & Hall).
    assert (ifs' = pre ++ ifi :: post) as -> by congruence.
    apply Forall_app in Hall as [_ Hall]. apply Forall_cons in Hall as [[l Hl] _].
    congruence.
Qed.

Lemma listing_mode_outcome_witness :
  Forall noSocket
    (trace (run Host.addrsFailing
              [ArgMacAddress "01:23:45:67:89:ab:cd:ef"; ArgListNetworkAdapters true])) /\
  outcome (run Host.addrsFailing
             [ArgMacAddress "01:23:45:67:89:ab:cd:ef"; ArgListNetworkAdapters true])
    = Exits networkAdapterAddressesFetchingError.
Proof.
  destruct (listing_mode_outcome Host.addrsFailing
              [ArgMacAddress "01:23:45:67:89:ab:cd:ef"; ArgListNetworkAdapters true]
              (programFlags.mk true (Some Host.eui64) ""))
    as (Hno & _ & Hfive & _).
  - by exists [].
  - reflexivity.
  - split; [exact Hno|]. apply Hfive.
    exists [Host.lo; Host.eth0], Host.eth0, "permission denied".
    split_and!; [reflexivity| |reflexivity]. find_in_trace.
Defined.

(** ** Reporting *)

Lemma adapterEvents_no_stderr (w : World) (ifs : list Interface.t) :
  List.filter isStderr (concat (map (adapterEvents w) ifs)) = [].
Proof.
  induction ifs as [|ifi ifs IH]; [done|].
  cbn [map concat]. rewrite List.filter_app, IH.
  unfold adapterEvents. by destruct (adapterLine w ifi).
Qed.

(** X7. In every run in which [flag.Parse] returns (the command line has
    no flag error): the run does not panic; if it returns it has written
    nothing to the error stream; if it leaves it has written exactly one
    line to the error stream, as its last event, and leaves with the code
    of that line; so its exit status is one of 0, 3, 4, 5, 6, 7, 8, 9
    and 10. *)
Theorem program_exit_is_announced
  (w : World) (args : list FlagArg) (flags : programFlags.t) :
  parsed w args flags ->
  match outcome (run w args) with
  | Returns _ => List.filter isStderr (trace (run w args)) = []
  | Exits code =>
      exists t m,
        trace (run w args) = t ++ [Stderr m] /\
        List.filter isStderr t = [] /\
        messageCode m = Some code
  | Panics => False
  end /\
  exitStatus (outcome (run w args)) ∈ [0; 3; 4; 5; 6; 7; 8; 9; 10].
Proof.
  intros Hparsed. apply parsed_silent in Hparsed.
  assert (Hshape :
    match outcome (run w args) with
    | Returns _ => List.filter isStderr (trace (run w args)) = []
    | Exits code =>
        exists t m,
          trace (run w args) = t ++ [Stderr m] /\
          List.filter isStderr t = [] /\
          messageCode m = Some code /\
          code <> flagErrorExit
    | Panics => False
    end).
  { destruct (run_cases w args)
      as [(s & e & Hparse & _)
         |[(m & code & _ & Hrun & Hcode & Hne)
          |[(_ & _ & Hrun)|(hw & _ & _ & Hmac & Hlen & Hrun)]]].
    - rewrite Hparse in Hparsed. discriminate Hparsed.
    - rewrite Hrun. cbn. by exists [], m.
    - rewrite Hrun.
      destruct (listNetworkAdapters_cases w (flagsAfterParse w args))
        as [(err & _ & ->)|[(ifs & _ & _ & ->)|(pre & ifi & post & err & _ & _ & _ & ->)]];
        cbn.
      + eexists [_], _. split_and!; try done; by vm_compute.
      + apply adapterEvents_no_stderr.
      + exists (CallInterfaces :: concat (map (adapterEvents w) pre) ++ [CallAddrs ifi]),
          (MsgAddressesFetching (Interface.Index ifi) err).
        split_and!.
        * cbn. by rewrite <- app_assoc.
        * cbn. by rewrite List.filter_app, adapterEvents_no_stderr.
        * done.
        * by vm_compute.
    - rewrite Hrun, (wakeRemoteComputer_tree w _ hw Hmac Hlen). cbv zeta.
      destruct (net_InterfaceByName w _) as [ifi|err]; cbn;
        [|eexists [_], _; split_and!; try done; by vm_compute].
      destruct (net_Addrs w ifi) as [l|err]; cbn;
        [|eexists [_; _], _; split_and!; try done; by vm_compute].
      destruct (net_DialUDP w (rangeAddresses l) remoteAddress) as [c|err]; cbn;
        [|eexists [_; _; _], _; split_and!; try done; by vm_compute].
      destruct (conn_Write w c (magicPacket hw)) as [n [e|]];
        [|destruct (bool_decide (n = payloadLength))]; cbn;
        [eexists [_; _; _; _; _], _; split_and!; try done; by vm_compute
        |done
        |eexists [_; _; _; _; _], _; split_and!; try done; by vm_compute]. }
  split.
  - destruct (outcome (run w args)) as [[]|code|]; [done| |done].
    destruct Hshape as (t & m & Ht & Hfilter & Hcode & _). by exists t, m.
  - destruct (outcome (run w args)) as [[]|code|]; cbn; [find_in_trace| |done].
    destruct Hshape as (_ & m & _ & _ & Hcode & Hne).
    destruct m; cbn in Hcode; simplify_eq; try done; vm_compute; find_in_trace.
Qed.

Lemma program_exit_is_announced_witness :
  (exists t m,
     trace (run Host.writeShort [ArgMacAddress "AA:BB:CC:DD:EE:FF";
                                 ArgNetworkAdapterName "eth0"])
       = t ++ [Stderr m] /\
     List.filter isStderr t = [] /\
     messageCode m = Some notAllWOLPayloadBytesSentError) /\
  exitStatus (outcome (run Host.writeShort [ArgMacAddress "AA:BB:CC:DD:EE:FF";
                                            ArgNetworkAdapterName "eth0"]))
    ∈ [0; 3; 4; 5; 6; 7; 8; 9; 10].
Proof.
  apply (program_exit_is_announced Host.writeShort
           [ArgMacAddress "AA:BB:CC:DD:EE:FF"; ArgNetworkAdapterName "eth0"]
           (programFlags.mk false (Some Host.target) "eth0")).
  by exists [].
Defined.

(** ** The flags *)

Lemma wakeRemoteComputer_keeps_flags (w : World) (flags : programFlags.t) :
  (wakeRemoteComputer w flags).1.2 = flags.
Proof.
  unfold wakeRemoteComputer, openUDPConnection, addressFromNetworkAdapterName,
    addressFromNetworkAdapter, createWOLPayload, sendWOLPayload, closeUDPConnection.
  run_prog.
  destruct (net_InterfaceByName w _) as [ifi|err]; cbn; [|done].
  destruct (net_Addrs w ifi) as [l|err]; cbn; [|done].
  destruct (net_DialUDP w _ _) as [c|err]; cbn; [|done].
  destruct (payloadOf _) as [payload|]; cbn; [|done].
  destruct (conn_Write w c payload) as [n [e|]]; cbn; [done|].
  by destruct (bool_decide (n = payloadLength)).
Qed.

Lemma listNetworkAdapters_keeps_flags (w : World) (flags : programFlags.t) :
  (listNetworkAdapters w flags).1.2 = flags.
Proof.
  by destruct (listNetworkAdapters_cases w flags)
    as [(? & _ & ->)|[(? & _ & _ & ->)|(? & ? & ? & ? & _ & _ & _ & ->)]].
Qed.

(** X8. [programFlags] is written by [flag.Parse] only: the listing and
    the send path leave it as they find it, whatever the host answers, so
    at the end of every run it holds what [flag.Parse] left. *)
Theorem programFlags_written_by_flag_Parse_only (w : World) (args : list FlagArg) :
  (run w args).1.2 = flagsAfterParse w args /\
  (forall flags, (listNetworkAdapters w flags).1.2 = flags) /\
  (forall flags, (wakeRemoteComputer w flags).1.2 = flags).
Proof.
  split_and!.
  - destruct (run_cases_socket w args)
      as [(code & t & -> & _)|[(_ & _ & ->)|(hw & _ & _ & _ & _ & ->)]].
    + done.
    + apply listNetworkAdapters_keeps_flags.
    + apply wakeRemoteComputer_keeps_flags.
  - apply listNetworkAdapters_keeps_flags.
  - apply wakeRemoteComputer_keeps_flags.
Qed.

(** What [flag.Parse] leaves when it starts from any flags and returns. *)
Lemma flag_Parse_last (w : World) (args : list FlagArg)
  (flags0 flags : programFlags.t) (t : list Event) :
  flag_Parse w args flags0 = (Returns tt, flags, t) ->
  programFlags.listNetworkAdapters flags
    = default (programFlags.listNetworkAdapters flags0) (last (omap listValue args)) /\
  programFlags.networkAdapterName flags
    = default (programFlags.networkAdapterName flags0) (last (omap nameValue args)) /\
  match last (omap macValue args) with
  | Some s => exists hw, net_ParseMAC w s = Ok hw /\
                         programFlags.macAddress flags = Some hw
  | None => programFlags.macAddress flags = programFlags.macAddress flags0
  end.
Proof.
  revert flags0 t. induction args as [|arg args IH]; intros flags0 t.
  - cbn. by intros [= <- <-].
  - cbn [flag_Parse]. destruct arg as [value|name|s]; unfold parseMACAddressFlag;
      run_prog; cbn [omap list_omap listValue nameValue macValue].
    + cbn.
      destruct (flag_Parse w args _) as [[[[]|code|] f] t'] eqn:Hrest; try done.
      intros [= <- <-]. destruct (IH _ _ Hrest) as (Hl & Hn & Hm). cbn in *.
      rewrite last_cons. split_and!; [|done|done].
      by destruct (last (omap listValue args)).
    + cbn.
      destruct (flag_Parse w args _) as [[[[]|code|] f] t'] eqn:Hrest; try done.
      intros [= <- <-]. destruct (IH _ _ Hrest) as (Hl & Hn & Hm). cbn in *.
      rewrite last_cons. split_and!; [done| |done].
      by destruct (last (omap nameValue args)).
    + destruct (net_ParseMAC w s) as [hw|err] eqn:Hs; cbn; [|done].
      destruct (flag_Parse w args _) as [[[[]|code|] f] t'] eqn:Hrest; try done.
      intros [= <- <-]. destruct (IH _ _ Hrest) as (Hl & Hn & Hm). cbn in *.
      rewrite last_cons. split_and!; [done|done|].
      destruct (last (omap macValue args)); [done|]. by exists hw.
Qed.

(** X9. When [flag.Parse] returns, each flag holds the value of its last
    occurrence on the command line: the listing switch (false when never
    given), the adapter name (empty when never given), and, for
    [-mac-address], the bytes [net.ParseMAC] returns for the last address
    given (nil when none was given). *)
Theorem flags_hold_last_occurrence
  (w : World) (args : list FlagArg) (flags : programFlags.t) :
  parsed w args flags ->
  programFlags.listNetworkAdapters flags = default false (last (omap listValue args)) /\
  programFlags.networkAdapterName flags = default "" (last (omap nameValue args)) /\
  match last (omap macValue args) with
  | Some s => net_ParseMAC w s = Ok (default [] (programFlags.macAddress flags)) /\
              programFlags.macAddress flags <> None
  | None => programFlags.macAddress flags = None
  end.
Proof.
  intros [t Hparse].
  destruct (flag_Parse_last w args init flags t Hparse) as (Hl & Hn & Hm).
  split_and!; [done|done|].
  destruct (last (omap macValue args)) as [s|]; [|done].
  destruct Hm as (hw & Hs & ->). by split.
Qed.

Lemma flags_hold_last_occurrence_witness :
  programFlags.listNetworkAdapters (programFlags.mk false (Some Host.target) "eth0")
    = default false (last (omap listValue
        [ArgMacAddress "01:23:45:67:89:ab:cd:ef"; ArgNetworkAdapterName "lo";
         ArgNetworkAdapterName "eth0"; ArgMacAddress "AA:BB:CC:DD:EE:FF"])) /\
  programFlags.networkAdapterName (programFlags.mk false (Some Host.target) "eth0")
    = default "" (last (omap nameValue
        [ArgMacAddress "01:23:45:67:89:ab:cd:ef"; ArgNetworkAdapterName "lo";
         ArgNetworkAdapterName "eth0"; ArgMacAddress "AA:BB:CC:DD:EE:FF"])) /\
  match last (omap macValue
        [ArgMacAddress "01:23:45:67:89:ab:cd:ef"; ArgNetworkAdapterName "lo";
         ArgNetworkAdapterName "eth0"; ArgMacAddress "AA:BB:CC:DD:EE:FF"]) with
  | Some s =>
      net_ParseMAC Host.world s
        = Ok (default [] (programFlags.macAddress
                            (programFlags.mk false (Some Host.target) "eth0"))) /\
      programFlags.macAddress (programFlags.mk false (Some Host.target) "eth0") <> None
  | None =>
      programFlags.macAddress (programFlags.mk false (Some Host.target) "eth0") = None
  end.
Proof.
  apply (flags_hold_last_occurrence Host.world
           [ArgMacAddress "01:23:45:67:89:ab:cd:ef"; ArgNetworkAdapterName "lo";
            ArgNetworkAdapterName "eth0"; ArgMacAddress "AA:BB:CC:DD:EE:FF"]
           (programFlags.mk false (Some Host.target) "eth0")).
  by exists [].
Defined.

(** ** The lines of the listing *)

Lemma resolved_Some (w : World) (ifi : Interface.t) (a : UDPAddr.t) :
  resolved w ifi = Some a ->
  exists l, net_Addrs w ifi = Ok l /\ rangeAddresses l = Some a.
Proof.
  unfold resolved, addressFromNetworkAdapter. run_prog.
  destruct (net_Addrs w ifi) as [l|err]; cbn; [|done].
  intros H. by exists l.
Qed.

Lemma adapterEvents_line (w : World) (ifs : list Interface.t) (ip : IP) (name : string) :
  Stdout (MsgAdapterLine ip name) ∈ concat (map (adapterEvents w) ifs) ->
  exists ifi a,
    ifi ∈ ifs /\ resolved w ifi = Some a /\
    UDPAddr.IP a = ip /\ Interface.Name ifi = name.
Proof.
  induction ifs as [|ifi ifs IH]; cbn [map concat]; [by intros Hin%elem_of_nil|].
  intros [Hin|Hin]%elem_of_app.
  - unfold adapterEvents, adapterLine in Hin.
    destruct (resolved w ifi) as [a|] eqn:Ha; cbn in Hin; in_trace Hin.
    exists ifi, a. split_and!; [by left|done..].
  - destruct (IH Hin) as (b & a & Hb & Hrest). exists b, a. split; [by right|done].
Qed.

(** X10. Every line the listing prints names an adapter the system
    reported and shows an address of that adapter: the 4-byte form, with a
    first byte other than 127, of the address of one of its IP-network
    entries. *)
Theorem listed_lines_are_adapter_addresses
  (w : World) (flags : programFlags.t) (ip : IP) (name : string) :
  Stdout (MsgAdapterLine ip name) ∈ trace (listNetworkAdapters w flags) ->
  length ip = 4%nat /\
  ip !! 0%nat <> Some x7f /\
  exists ifs ifi l ip' mask,
    net_Interfaces w = Ok ifs /\ ifi ∈ ifs /\ Interface.Name ifi = name /\
    net_Addrs w ifi = Ok l /\ IPNet ip' mask ∈ l /\ To4 ip' = Some ip.
Proof.
  intros Hin.
  assert (exists ifs ifi a,
            net_Interfaces w = Ok ifs /\ ifi ∈ ifs /\ resolved w ifi = Some a /\
            UDPAddr.IP a = ip /\ Interface.Name ifi = name)
    as (ifs & ifi & a & Hifs & Hifi & Ha & <- & <-).
  { destruct (listNetworkAdapters_cases w flags)
      as [(err & _ & Hrun)|[(ifs & Hifs & _ & Hrun)
                           |(pre & b & post & err & Hifs & _ & _ & Hrun)]];
      rewrite Hrun in Hin; cbn in Hin.
    - in_trace Hin.
    - apply elem_of_cons in Hin as [[=]|Hin].
      destruct (adapterEvents_line w ifs ip name Hin) as (ifi & a & ? & ? & ? & ?).
      by exists ifs, ifi, a.
    - apply elem_of_cons in Hin as [[=]|Hin].
      apply elem_of_app in Hin as [Hin|Hin]; [|in_trace Hin].
      destruct (adapterEvents_line w pre ip name Hin) as (ifi & a & Hpre & ? & ? & ?).
      exists (pre ++ b :: post), ifi, a. split_and!; [done| |done..].
      apply elem_of_app. by left. }
  destruct (resolved_Some w ifi a Ha) as (l & Hl & Hsel).
  destruct (rangeAddresses_Some l a Hsel) as (_ & ip' & mask & Hin' & H4 & Hlo).
  split_and!; [by eapply To4_length|done|].
  by exists ifs, ifi, l, ip', mask.
Qed.

Lemma listed_lines_are_adapter_addresses_witness :
  length [xc0; xa8; x01; x0a] = 4%nat /\
  ([xc0; xa8; x01; x0a] : IP) !! 0%nat <> Some x7f /\
  exists ifs ifi l ip' mask,
    net_Interfaces Host.world = Ok ifs /\ ifi ∈ ifs /\ Interface.Name ifi = "eth0" /\
    net_Addrs Host.world ifi = Ok l /\ IPNet ip' mask ∈ l /\
    To4 ip' = Some [xc0; xa8; x01; x0a].
Proof.
  apply (listed_lines_are_adapter_addresses Host.world (programFlags.mk true None "")).
  match goal with
  | |- ?e ∈ ?t => let t' := eval vm_compute in t in change (e ∈ t')
  end.
  find_in_trace.
Defined.

(** ** The send path without a local address *)

Lemma run_sending_path (w : World) (args : list FlagArg) flags hw :
  sending w args flags hw ->
  run w args = wakeRemoteComputer w flags.
Proof.
  intros (Hparsed & Hlist & Hmac & Hlen).
  unfold run, main, parseProgramFlags, checkParsedMACAddress. run_prog.
  rewrite (parsed_silent w args flags Hparsed). cbn. rewrite Hlist, Hmac. cbn.
  rewrite bool_decide_false; [|unfold eui48Length; lia].
  cbn. rewrite Hlist. by destruct (wakeRemoteComputer w flags) as [[o f] t].
Qed.

(** C2 (amended). When the resolver finds no qualifying address on the
    selected adapter, the send step does not stop there:
    [openUDPConnection] calls [net.DialUDP] with a nil local address and
    the broadcast address on port 7.  When that call fails the process
    ends with [udpConnectionError]; when it succeeds the run goes on to
    send: right after the call it writes the magic packet of the address
    to the socket the call returned, and it ends as that send ends. *)
Theorem send_continues_without_local_address
  (w : World) (args : list FlagArg) (flags : programFlags.t) (hw : HardwareAddr) :
  sending w args flags hw ->
  outcome (addressFromNetworkAdapterName w (programFlags.networkAdapterName flags) flags)
    = Returns None ->
  CallDialUDP None remoteAddress ∈ trace (openUDPConnection w flags) /\
  outcome (openUDPConnection w flags)
    = match net_DialUDP w None remoteAddress with
      | Ok udpConnection => Returns udpConnection
      | Err _ => Exits udpConnectionError
      end /\
  match net_DialUDP w None remoteAddress with
  | Err _ => outcome (run w args) = Exits udpConnectionError
  | Ok udpConnection =>
      exists before after,
        trace (run w args)
          = before
              ++ CallDialUDP None remoteAddress
              :: Stdout (MsgSending (UDPConn.RemoteAddr udpConnection)
                                    (UDPConn.LocalAddr udpConnection))
              :: CallWrite udpConnection (magicPacket hw)
              :: after /\
        Forall noSocket before /\
        outcome (run w args)
          = outcome (sendWOLPayload w udpConnection (magicPacket hw) flags)
  end.
Proof.
  intros Hsending Hnil.
  destruct (addressFromNetworkAdapterName_nil w _ flags Hnil)
    as (ifi & l & Hifi & Hl & Hresolver).
  assert (Hsel : rangeAddresses l = None).
  { revert Hnil. unfold addressFromNetworkAdapterName, addressFromNetworkAdapter.
    run_prog. rewrite Hifi. cbn. rewrite Hl. cbn. by intros [= ->]. }
  split_and!.
  - unfold openUDPConnection. run_prog. rewrite Hresolver.
    destruct (net_DialUDP w None remoteAddress) as [c|err]; cbn; find_in_trace.
  - unfold openUDPConnection. run_prog. rewrite Hresolver.
    by destruct (net_DialUDP w None remoteAddress) as [c|err].
  - rewrite (run_sending_path w args flags hw Hsending).
    destruct Hsending as (_ & _ & Hmac & Hlen).
    rewrite (wakeRemoteComputer_tree w flags hw Hmac Hlen). cbv zeta.
    rewrite Hifi, Hl, Hsel.
    destruct (net_DialUDP w None remoteAddress) as [c|err]; [|done].
    exists [CallInterfaceByName (programFlags.networkAdapterName flags); CallAddrs ifi].
    unfold sendWOLPayload. run_prog.
    destruct (conn_Write w c (magicPacket hw)) as [n [e|]];
      [|destruct (bool_decide (n = payloadLength))]; cbn;
      eexists; (split_and!; [reflexivity|by repeat constructor|done]).
Qed.

Lemma send_continues_without_local_address_witness :
  CallDialUDP None remoteAddress
    ∈ trace (openUDPConnection Host.world (programFlags.mk false (Some Host.target) "lo")) /\
  outcome (openUDPConnection Host.world (programFlags.mk false (Some Host.target) "lo"))
    = Returns (UDPConn.mk (UDPAddr.mk [xc0; xa8; x01; x0a] 40000) remoteAddress) /\
  exists before after,
    trace (run Host.world [ArgMacAddress "AA:BB:CC:DD:EE:FF"; ArgNetworkAdapterName "lo"])
      = before
          ++ CallDialUDP None remoteAddress
          :: Stdout (MsgSending remoteAddress (UDPAddr.mk [xc0; xa8; x01; x0a] 40000))
          :: CallWrite (UDPConn.mk (UDPAddr.mk [xc0; xa8; x01; x0a] 40000) remoteAddress)
                       (magicPacket Host.target)
          :: after /\
    Forall noSocket before /\
    outcome (run Host.world [ArgMacAddress "AA:BB:CC:DD:EE:FF";
                             ArgNetworkAdapterName "lo"])
      = outcome (sendWOLPayload Host.world
                   (UDPConn.mk (UDPAddr.mk [xc0; xa8; x01; x0a] 40000) remoteAddress)
                   (magicPacket Host.target)
                   (programFlags.mk false (Some Host.target) "lo")).
Proof.
  refine (send_continues_without_local_address Host.world
            [ArgMacAddress "AA:BB:CC:DD:EE:FF"; ArgNetworkAdapterName "lo"]
            (programFlags.mk false (Some Host.target) "lo") Host.target _ _).
  - by_running.
  - reflexivity.
Defined.
